(** * TAWI transcribe-and-translate: capture, chunking and single-flight
      inference coordination.

    The two React route components, [src/routes/broadcaster.jsx] and
    [src/routes/receiver.jsx], are embedded as state machines: the values
    held by [useState]/[useRef] form a record, every callback the source
    registers (worker message listener, recorder callbacks, UI handlers,
    effects) is a function from the state to the next state together with
    the list of calls it makes on its collaborators (worker, recorder,
    timers, file reader, broadcast channel). *)

From Stdlib Require Import String List ZArith Bool Lia.
Import ListNotations.

Local Open Scope string_scope.
Local Open Scope list_scope.

(* ================================================================== *)
(** * Receiver: [src/routes/receiver.jsx]                              *)
(* ================================================================== *)

Module Receiver.

(** What the component takes from its surroundings. *)
Class Env := {
  (** JavaScript numbers carried by progress messages; never inspected. *)
  number : Type;
  (** [languageMapping] of [utils/languages]: Whisper language code to
      NLLB language code; a lookup of an unknown key is [undefined]. *)
  languageMapping : string -> option string
}.

Section WithEnv.

Context `{Env}.

(** An entry of [progressItems]: the [e.data] of an 'initiate' message. *)
Record ProgressItem := mkItem { file : string; progress : option number }.

(** [e.data] of a message of the translation worker, by [e.data.status]. *)
Inductive Message :=
| Initiate (item : ProgressItem)
| Progress (f : string) (p : option number)
| Done (f : string)
| Ready
| Update (out : string)                 (* e.data.output *)
| Complete (translation_text : string)  (* e.data.output[0].translation_text *)
| Unhandled (status : string).          (* a status with no [case], e.g. 'error' *)

(** Calls made on collaborators. *)
Inductive Cmd :=
| ConsoleLog (s : string)
| PostMessage (text : string) (src_lang : option string) (tgt_lang : string)
| Subscribe.

(** The hooks of [App]; [disabled] is [disabled.current]. *)
Record State := mkState {
  ready : option bool;
  disabled : bool;
  progressItems : list ProgressItem;
  input : string;
  inputRef : string;
  sourceLanguage : option string;
  sourceLanguageRef : option string;
  targetLanguage : string;
  targetLanguageRef : string;
  output : string
}.

Definition init : State :=
  {| ready := None; disabled := false; progressItems := [];
     input := "Hallo."; inputRef := "Hallo.";
     sourceLanguage := Some "deu_Latn"; sourceLanguageRef := Some "deu_Latn";
     targetLanguage := "eng_Latn"; targetLanguageRef := "eng_Latn";
     output := "" |}.

Definition setReady (b : bool) (s : State) : State :=
  mkState (Some b) (disabled s) (progressItems s) (input s) (inputRef s)
    (sourceLanguage s) (sourceLanguageRef s) (targetLanguage s)
    (targetLanguageRef s) (output s).

Definition setDisabled (b : bool) (s : State) : State :=
  mkState (ready s) b (progressItems s) (input s) (inputRef s)
    (sourceLanguage s) (sourceLanguageRef s) (targetLanguage s)
    (targetLanguageRef s) (output s).

Definition setProgressItems (f : list ProgressItem -> list ProgressItem)
    (s : State) : State :=
  mkState (ready s) (disabled s) (f (progressItems s)) (input s) (inputRef s)
    (sourceLanguage s) (sourceLanguageRef s) (targetLanguage s)
    (targetLanguageRef s) (output s).

(** [setInput(v); inputRef.current = v] *)
Definition setInput (v : string) (s : State) : State :=
  mkState (ready s) (disabled s) (progressItems s) v v
    (sourceLanguage s) (sourceLanguageRef s) (targetLanguage s)
    (targetLanguageRef s) (output s).

(** [setSourceLanguage(v); sourceLanguageRef.current = v] *)
Definition setSourceLanguage (v : option string) (s : State) : State :=
  mkState (ready s) (disabled s) (progressItems s) (input s) (inputRef s)
    v v (targetLanguage s) (targetLanguageRef s) (output s).

(** [setTargetLanguage(v); targetLanguageRef.current = v] *)
Definition setTargetLanguage (v : string) (s : State) : State :=
  mkState (ready s) (disabled s) (progressItems s) (input s) (inputRef s)
    (sourceLanguage s) (sourceLanguageRef s) v v (output s).

Definition setOutput (v : string) (s : State) : State :=
  mkState (ready s) (disabled s) (progressItems s) (input s) (inputRef s)
    (sourceLanguage s) (sourceLanguageRef s) (targetLanguage s)
    (targetLanguageRef s) v.

(** [sourceLanguageRef.current === targetLanguageRef.current] *)
Definition sameLanguage (src : option string) (tgt : string) : bool :=
  match src with
  | Some l => String.eqb l tgt
  | None => false
  end.

(** [onMessageReceived], lines 42-84. *)
Definition onMessageReceived (m : Message) (s : State) : State :=
  match m with
  | Initiate item =>
      setProgressItems (fun prev => prev ++ [item]) (setReady false s)
  | Progress f p =>
      setProgressItems
        (map (fun item =>
                if String.eqb (file item) f then mkItem (file item) p
                else item)) s
  | Done f =>
      setProgressItems
        (filter (fun item => negb (String.eqb (file item) f))) s
  | Ready => setReady true s
  | Update out => setOutput out s
  | Complete translation_text =>
      setDisabled false (setOutput translation_text s)
  | Unhandled _ => s
  end.

(** [translate], lines 94-107. *)
Definition translate (s : State) : State * list Cmd :=
  if disabled s then (s, [])
  else if sameLanguage (sourceLanguageRef s) (targetLanguageRef s)
  then (setOutput (inputRef s) s, [])
  else (setDisabled true s,
        [ConsoleLog "Translating...";
         PostMessage (inputRef s) (sourceLanguageRef s) (targetLanguageRef s)]).

(** What the JavaScript event loop delivers to the component. *)
Inductive Event :=
| Mount                                          (* lines 110-123 *)
| Broadcast (message : string) (language : string) (* lines 115-121 *)
| TargetChange (value : string)                  (* lines 175-179 *)
| WorkerMessage (m : Message).

Definition step (s : State) (e : Event) : State * list Cmd :=
  match e with
  | Mount =>
      let (s', cmds) := translate s in (s', cmds ++ [Subscribe])
  | Broadcast message language =>
      translate (setSourceLanguage (languageMapping language)
                   (setInput message s))
  | TargetChange value => translate (setTargetLanguage value s)
  | WorkerMessage m => (onMessageReceived m s, [])
  end.

(** Runs a trace of events, collecting the collaborator calls in order. *)
Fixpoint run (s : State) (tr : list Event) : State * list Cmd :=
  match tr with
  | [] => (s, [])
  | e :: tr' =>
      let (s1, c1) := step s e in
      let (s2, c2) := run s1 tr' in
      (s2, c1 ++ c2)
  end.

(** The translate gate as the source has it: [disabled.current]. *)
Definition denied (s : State) : bool := disabled s.

(** An event is a granted request when [translate] reaches line 100. *)
Definition granted (s : State) (e : Event) : bool :=
  match e with
  | WorkerMessage _ => false
  | _ => negb (disabled s) && disabled (fst (step s e))
  end.

(** The gate is released by the 'complete' case, line 81. *)
Definition releases (e : Event) : bool :=
  match e with
  | WorkerMessage (Complete _) => true
  | _ => false
  end.

(** The requests posted to the translation worker among [cmds]. *)
Definition isPost (c : Cmd) : bool :=
  match c with PostMessage _ _ _ => true | _ => false end.

Definition posts (cmds : list Cmd) : list Cmd := filter isPost cmds.

(** The gate as the specification words it: held when some earlier
    request was granted and no release has occurred since. [held] is the
    answer for the events seen before [tr]. *)
Fixpoint outstanding (s : State) (tr : list Event) (held : bool) : bool :=
  match tr with
  | [] => held
  | e :: tr' =>
      outstanding (fst (step s e)) tr'
        (if releases e then false else held || granted s e)
  end.

End WithEnv.

End Receiver.

(* ================================================================== *)
(** * Broadcaster: [src/routes/broadcaster.jsx]                        *)
(* ================================================================== *)

Module Broadcaster.

(** Lines 12-14. *)
Definition WHISPER_SAMPLING_RATE : Z := 16000.
Definition MAX_AUDIO_LENGTH : Z := 30.
Definition MAX_SAMPLES : Z := WHISPER_SAMPLING_RATE * MAX_AUDIO_LENGTH.

(** [status]: [null], 'loading' or 'ready'. *)
Inductive Status := StatusNull | StatusLoading | StatusReady.

(** [text] starts as [''] and then holds [e.data.output], an array. *)
Inductive Text := TextString (s : string) | TextArray (l : list string).

(** What the component takes from the browser. *)
Class Platform := {
  (** Content of the binary chunks delivered by the recorder; the component
      looks at the size of a chunk only, never at what it holds. *)
  byte : Type;
  (** Elements of the [Float32Array] returned by [getChannelData]. *)
  sample : Type;
  (** JavaScript numbers that are displayed only ([tps], progress). *)
  number : Type;
  (** [AudioContext.decodeAudioData]; [None] when the promise rejects. *)
  AudioBuffer : Type;
  decodeAudioData : list byte -> option AudioBuffer;
  getChannelData : AudioBuffer -> nat -> list sample
}.

Section WithPlatform.

Context `{Platform}.

(** A [Blob] is its bytes; [blob.size] is their number. *)
Definition Blob := list byte.
Definition size (b : Blob) : nat := List.length b.

(** [new Blob(chunks)]: the parts concatenated in order. *)
Definition newBlob (parts : list Blob) : Blob := concat parts.

(** [TypedArray.prototype.slice(start)] with [end] omitted. *)
Definition slice (start : Z) (a : list sample) : list sample :=
  let len := Z.of_nat (List.length a) in
  let k := if (start <? 0)%Z then Z.max (len + start) 0 else Z.min start len in
  skipn (Z.to_nat k) a.

Record ProgressItem := mkItem {
  file : string; progress : option number; total : option number }.

(** A field of a message object: the key is missing, or it is there with
    a value, which may be [undefined]. *)
Inductive Field :=
| Absent
| Present (v : option number).

(** [e.data] of a 'progress' message, on the fields the component
    renders. *)
Record ProgressData := mkData {
  dataFile : string; dataProgress : Field; dataTotal : Field }.

(** [{ ...item, key: value }] for one key of the spread object: a key that
    is there overwrites, also with [undefined]. *)
Definition overwrite (old : option number) (f : Field) : option number :=
  match f with
  | Absent => old
  | Present v => v
  end.

(** [{ ...item, ...d }] on the fields the component renders. *)
Definition spread (item : ProgressItem) (d : ProgressData) : ProgressItem :=
  mkItem (dataFile d)
    (overwrite (progress item) (dataProgress d))
    (overwrite (total item) (dataTotal d)).

(** [e.data] of a message of the transcription worker, by status. *)
Inductive Message :=
| Loading (data : string)
| Initiate (item : ProgressItem)
| Progress (d : ProgressData)
| Done (f : string)
| Ready
| Start
| Update (tps : number)
| Complete (out : list string)       (* e.data.output *)
| Unhandled (status : string).       (* a status with no [case], e.g. 'error' *)

(** Calls made on collaborators. *)
Inductive Cmd :=
| RecorderStart
| RecorderStop
| RequestData
| SetTimeout (ms : Z)                (* callback: line 158 *)
| ReadAsArrayBuffer (blob : Blob) (language : string)
| PostLoad
| PostGenerate (audio : list sample) (language : string)
| DoBroadcast (message : option string) (language : string).

(** The hooks of [App]; [recorderRef] tells whether [recorderRef.current]
    is set. *)
Record State := mkState {
  recorderRef : bool;
  status : Status;
  loadingMessage : string;
  progressItems : list ProgressItem;
  text : Text;
  tps : option number;
  language : string;
  languageRef : string;
  recording : bool;
  isProcessing : bool;
  chunks : list Blob
}.

Definition init : State :=
  {| recorderRef := false; status := StatusNull; loadingMessage := "";
     progressItems := []; text := TextString ""; tps := None;
     language := "en"; languageRef := "en";
     recording := false; isProcessing := false; chunks := [] |}.

Definition setRecorderRef (b : bool) (s : State) : State :=
  mkState b (status s) (loadingMessage s) (progressItems s) (text s) (tps s)
    (language s) (languageRef s) (recording s) (isProcessing s) (chunks s).

Definition setStatus (v : Status) (s : State) : State :=
  mkState (recorderRef s) v (loadingMessage s) (progressItems s) (text s)
    (tps s) (language s) (languageRef s) (recording s) (isProcessing s)
    (chunks s).

Definition setLoadingMessage (v : string) (s : State) : State :=
  mkState (recorderRef s) (status s) v (progressItems s) (text s) (tps s)
    (language s) (languageRef s) (recording s) (isProcessing s) (chunks s).

Definition setProgressItems (f : list ProgressItem -> list ProgressItem)
    (s : State) : State :=
  mkState (recorderRef s) (status s) (loadingMessage s) (f (progressItems s))
    (text s) (tps s) (language s) (languageRef s) (recording s)
    (isProcessing s) (chunks s).

Definition setText (v : Text) (s : State) : State :=
  mkState (recorderRef s) (status s) (loadingMessage s) (progressItems s) v
    (tps s) (language s) (languageRef s) (recording s) (isProcessing s)
    (chunks s).

Definition setTps (v : number) (s : State) : State :=
  mkState (recorderRef s) (status s) (loadingMessage s) (progressItems s)
    (text s) (Some v) (language s) (languageRef s) (recording s)
    (isProcessing s) (chunks s).

(** [setLanguage(e); languageRef.current = e], lines 321-322. *)
Definition setLanguage (e : string) (s : State) : State :=
  mkState (recorderRef s) (status s) (loadingMessage s) (progressItems s)
    (text s) (tps s) e e (recording s) (isProcessing s) (chunks s).

Definition setRecording (b : bool) (s : State) : State :=
  mkState (recorderRef s) (status s) (loadingMessage s) (progressItems s)
    (text s) (tps s) (language s) (languageRef s) b (isProcessing s)
    (chunks s).

Definition setIsProcessing (b : bool) (s : State) : State :=
  mkState (recorderRef s) (status s) (loadingMessage s) (progressItems s)
    (text s) (tps s) (language s) (languageRef s) (recording s) b (chunks s).

Definition setChunks (f : list Blob -> list Blob) (s : State) : State :=
  mkState (recorderRef s) (status s) (loadingMessage s) (progressItems s)
    (text s) (tps s) (language s) (languageRef s) (recording s)
    (isProcessing s) (f (chunks s)).

(** [recorderRef.current?.m()]: the call is made when the recorder exists. *)
Definition recorderCall (c : Cmd) (s : State) : list Cmd :=
  if recorderRef s then [c] else [].

(** [onMessageReceived], lines 57-123. *)
Definition onMessageReceived (m : Message) (s : State) : State * list Cmd :=
  match m with
  | Loading data => (setLoadingMessage data (setStatus StatusLoading s), [])
  | Initiate item => (setProgressItems (fun prev => prev ++ [item]) s, [])
  | Progress d =>
      (setProgressItems
         (map (fun item =>
                 if String.eqb (file item) (dataFile d) then spread item d
                 else item)) s, [])
  | Done f =>
      (setProgressItems
         (filter (fun item => negb (String.eqb (file item) f))) s, [])
  | Ready => (setStatus StatusReady s, recorderCall RecorderStart s)
  | Start => (setIsProcessing true s, recorderCall RequestData s)
  | Update t => (setTps t s, [])
  | Complete out =>
      (setText (TextArray out) (setIsProcessing false s),
       [DoBroadcast (nth_error out 0) (languageRef s)])
  | Unhandled _ => (s, [])
  end.

(** [recorderRef.current.onstart], lines 148-151. *)
Definition onstart (s : State) : State :=
  setChunks (fun _ => []) (setRecording true s).

(** [recorderRef.current.ondataavailable], lines 152-161. *)
Definition ondataavailable (data : Blob) (s : State) : State * list Cmd :=
  if (0 <? size data)%nat then (setChunks (fun prev => prev ++ [data]) s, [])
  else (s, [SetTimeout 25]).

(** The timer callback, line 158: [recorderRef.current.requestData()]
    (a [TypeError] when the recorder is gone). *)
Definition ontimeout (s : State) : list Cmd :=
  if recorderRef s then [RequestData] else [].

(** [recorderRef.current.onstop], lines 163-165. *)
Definition onstop (s : State) : State := setRecording false s.

(** [fileReader.onloadend], lines 190-205; [language] is the value the
    effect closed over. *)
Definition onloadend (arrayBuffer : list byte) (language : string)
    : list Cmd :=
  match decodeAudioData arrayBuffer with
  | None => []
  | Some decoded =>
      let audio := getChannelData decoded 0 in
      let audio :=
        if (MAX_SAMPLES <? Z.of_nat (List.length audio))%Z
        then slice (- MAX_SAMPLES) audio
        else audio in
      [PostGenerate audio language]
  end.

(** The processing effect, lines 178-210. *)
Definition processing (s : State) : list Cmd :=
  if negb (recorderRef s) then []
  else if negb (recording s) then []
  else if isProcessing s then []
  else match status s with
       | StatusReady =>
           if (0 <? List.length (chunks s))%nat
           then [ReadAsArrayBuffer (newBlob (chunks s)) (language s)]
           else [RequestData]
       | _ => []
       end.

(** The [setLanguage] prop of [LanguageSelector], lines 319-324. *)
Definition onSetLanguage (e : string) (s : State) : State * list Cmd :=
  (setLanguage e s,
   recorderCall RecorderStop s ++ recorderCall RecorderStart s).

(** The Reset button, lines 328-331. *)
Definition onReset (s : State) : list Cmd :=
  recorderCall RecorderStop s ++ recorderCall RecorderStart s.

(** The START TRANSCRIBING button, lines 272-275. *)
Definition onClickStart (s : State) : State * list Cmd :=
  (setStatus StatusLoading s, [PostLoad]).

(** What the JavaScript event loop delivers to the component. *)
Inductive Event :=
| StreamGranted                         (* [getUserMedia] resolves, 140-166 *)
| OnStart
| OnDataAvailable (data : Blob)
| OnStop
| TimerFired
| LoadEnd (arrayBuffer : list byte) (language : string)
| WorkerMessage (m : Message)
| ClickStart
| SetLanguage (e : string)
| ClickReset
| Effect                                (* the processing effect runs *)
| Unmount.                              (* cleanup, lines 172-175 *)

Definition isReady (s : State) : bool :=
  match status s with StatusReady => true | _ => false end.

Definition isNull (s : State) : bool :=
  match status s with StatusNull => true | _ => false end.

(** One event. The buttons and the selector exist only while the branch
    of the JSX that renders them is taken (lines 239 and 283). *)
Definition step (s : State) (e : Event) : State * list Cmd :=
  match e with
  | StreamGranted => (setRecorderRef true s, [])
  | OnStart => (onstart s, [])
  | OnDataAvailable data => ondataavailable data s
  | OnStop => (onstop s, [])
  | TimerFired => (s, ontimeout s)
  | LoadEnd arrayBuffer lang => (s, onloadend arrayBuffer lang)
  | WorkerMessage m => onMessageReceived m s
  | ClickStart => if isNull s then onClickStart s else (s, [])
  | SetLanguage e => if isReady s then onSetLanguage e s else (s, [])
  | ClickReset => if isReady s then (s, onReset s) else (s, [])
  | Effect => (s, processing s)
  | Unmount => (setRecorderRef false s, recorderCall RecorderStop s)
  end.

(** Runs a trace of events, collecting the collaborator calls in order. *)
Fixpoint run (s : State) (tr : list Event) : State * list Cmd :=
  match tr with
  | [] => (s, [])
  | e :: tr' =>
      let (s1, c1) := step s e in
      let (s2, c2) := run s1 tr' in
      (s2, c1 ++ c2)
  end.

(** The processing step reads the buffer: the effect passed its guards
    with a non-empty [chunks]. *)
Definition drain (s : State) : option Blob :=
  match processing s with
  | [ReadAsArrayBuffer blob _] => Some blob
  | _ => None
  end.

(** The transcribe gate as the source has it: [isProcessing]. *)
Definition denied (s : State) : bool := isProcessing s.

(** The effect submits a window (a granted transcription request). *)
Definition granted (s : State) (e : Event) : bool :=
  match e with
  | Effect => match drain s with Some _ => true | None => false end
  | _ => false
  end.

Definition starts (e : Event) : bool :=
  match e with WorkerMessage Start => true | _ => false end.

Definition releases (e : Event) : bool :=
  match e with WorkerMessage (Complete _) => true | _ => false end.

(** Every chunk of the buffer has a positive size. *)
Definition allPositive (cs : list Blob) : Prop :=
  Forall (fun c => (0 < size c)%nat) cs.

(** The gate as the specification words it: held when some earlier
    request was granted and no release has occurred since. [held] is the
    answer for the events seen before [tr]. *)
Fixpoint outstanding (s : State) (tr : list Event) (held : bool) : bool :=
  match tr with
  | [] => held
  | e :: tr' =>
      outstanding (fst (step s e)) tr'
        (if releases e then false else held || granted s e)
  end.

(** A 'start' message has arrived and no 'complete' since. *)
Fixpoint generating (tr : list Event) (held : bool) : bool :=
  match tr with
  | [] => held
  | e :: tr' => generating tr' (if releases e then false else held || starts e)
  end.

(** The file reads started among [cmds]. *)
Definition isRead (c : Cmd) : bool :=
  match c with ReadAsArrayBuffer _ _ => true | _ => false end.

Definition readsOf (cmds : list Cmd) : list Cmd := filter isRead cmds.

End WithPlatform.

End Broadcaster.

(* ================================================================== *)
(** * The broadcaster together with its capture device                 *)
(* ================================================================== *)

(** The component drives a [MediaRecorder] through [start()], [stop()] and
    [requestData()] and is called back through [onstart],
    [ondataavailable] and [onstop]. To speak about the audio a window is
    made of, the component is run against the recorder's contract, and
    every captured byte remembers the language selected when the
    microphone produced it. The component is the one of [Broadcaster],
    unchanged: it is run on the platform whose bytes carry that mark. *)

Module Capture.

Import Broadcaster.

(** [MediaRecorder.state] *)
Inductive RecordingState := Inactive | Recording.

Section WithPlatform.

Context {P : Platform}.

(** The platform [P] with every byte marked by a language setting. *)
Definition Marked : Platform :=
  {| byte := (@byte P * string)%type;
     sample := @sample P;
     number := @number P;
     AudioBuffer := @AudioBuffer P;
     decodeAudioData := fun bs => @decodeAudioData P (map fst bs);
     getChannelData := @getChannelData P |}.

(** Callbacks the recorder has queued as tasks. *)
Inductive Callback :=
| CbStart
| CbData (blob : @Blob Marked)
| CbStop.

(** Modelled from the spec: the capture device collaborator of section 6
    ([start()], [stop()], [requestData()]; callbacks [onStart],
    [onDataAvailable], [onStop]). It is the browser's [MediaRecorder], not
    code of the repository; [start], [stop] and [requestData] below follow
    its contract: a state, the data gathered since the last delivery, and
    the callbacks queued for the event loop. *)
Record Device := mkDevice {
  state : RecordingState;
  captured : @Blob Marked;     (* gathered since the last delivery *)
  queue : list Callback
}.

(** [start()]: [InvalidStateError] unless inactive. *)
Definition start (d : Device) : Device :=
  match state d with
  | Recording => d
  | Inactive => mkDevice Recording [] (queue d ++ [CbStart])
  end.

(** [stop()]: nothing when inactive; otherwise the gathered data is
    delivered, then [stop] fires. *)
Definition stop (d : Device) : Device :=
  match state d with
  | Inactive => d
  | Recording => mkDevice Inactive [] (queue d ++ [CbData (captured d); CbStop])
  end.

(** [requestData()]: [InvalidStateError] when inactive; otherwise the
    gathered data is delivered and gathering starts afresh. *)
Definition requestData (d : Device) : Device :=
  match state d with
  | Inactive => d
  | Recording => mkDevice Recording [] (queue d ++ [CbData (captured d)])
  end.

(** The microphone produces a byte while [lang] is selected. *)
Definition capture (b : @byte P) (lang : string) (d : Device) : Device :=
  match state d with
  | Inactive => d
  | Recording => mkDevice Recording (captured d ++ [(b, lang)]) (queue d)
  end.

Record System := mkSystem {
  app : @State Marked;
  device : Device;
  timers : nat;                           (* pending 25 ms timers *)
  reads : list (@Blob Marked * string)    (* file reads in progress *)
}.

Definition initial : System :=
  mkSystem (@init Marked) (mkDevice Inactive [] []) 0 [].

(** Carries out one call of the component. *)
Definition exec (sys : System) (c : @Cmd Marked) : System :=
  match c with
  | RecorderStart =>
      mkSystem (app sys) (start (device sys)) (timers sys) (reads sys)
  | RecorderStop =>
      mkSystem (app sys) (stop (device sys)) (timers sys) (reads sys)
  | RequestData =>
      mkSystem (app sys) (requestData (device sys)) (timers sys) (reads sys)
  | SetTimeout _ =>
      mkSystem (app sys) (device sys) (S (timers sys)) (reads sys)
  | ReadAsArrayBuffer blob lang =>
      mkSystem (app sys) (device sys) (timers sys) (reads sys ++ [(blob, lang)])
  | PostLoad | PostGenerate _ _ | DoBroadcast _ _ => sys
  end.

(** Hands an event to the component and carries out its calls in order. *)
Definition deliver (e : @Event Marked) (sys : System)
    : System * list (@Cmd Marked) :=
  let (a, cmds) := @step Marked (app sys) e in
  (fold_left exec cmds (mkSystem a (device sys) (timers sys) (reads sys)),
   cmds).

Definition eventOf (cb : Callback) : @Event Marked :=
  match cb with
  | CbStart => OnStart
  | CbData blob => OnDataAvailable blob
  | CbStop => OnStop
  end.

(** What can happen next. *)
Inductive Action :=
| Sound (b : @byte P)          (* the microphone produces a byte *)
| Dispatch                     (* the oldest queued callback runs *)
| TimerElapsed
| ReadCompleted
| Granted
| Worker (m : @Message Marked)
| PressStart
| ChooseLanguage (e : string)
| PressReset
| Render                       (* the processing effect runs *)
| Unmounted.

Definition act (sys : System) (a : Action) : System * list (@Cmd Marked) :=
  match a with
  | Sound b =>
      (mkSystem (app sys)
         (capture b (language (app sys)) (device sys))
         (timers sys) (reads sys), [])
  | Dispatch =>
      match queue (device sys) with
      | [] => (sys, [])
      | cb :: q =>
          deliver (eventOf cb)
            (mkSystem (app sys)
               (mkDevice (state (device sys)) (captured (device sys)) q)
               (timers sys) (reads sys))
      end
  | TimerElapsed =>
      match timers sys with
      | O => (sys, [])
      | S n =>
          deliver TimerFired (mkSystem (app sys) (device sys) n (reads sys))
      end
  | ReadCompleted =>
      match reads sys with
      | [] => (sys, [])
      | (blob, lang) :: r =>
          deliver (LoadEnd blob lang)
            (mkSystem (app sys) (device sys) (timers sys) r)
      end
  | Granted => deliver StreamGranted sys
  | Worker m => deliver (WorkerMessage m) sys
  | PressStart => deliver ClickStart sys
  | ChooseLanguage e => deliver (SetLanguage e) sys
  | PressReset => deliver ClickReset sys
  | Render => deliver Effect sys
  | Unmounted => deliver Unmount sys
  end.

Fixpoint runSystem (sys : System) (tr : list Action)
    : System * list (@Cmd Marked) :=
  match tr with
  | [] => (sys, [])
  | a :: tr' =>
      let (s1, c1) := act sys a in
      let (s2, c2) := runSystem s1 tr' in
      (s2, c1 ++ c2)
  end.

(** All bytes of a blob were captured under one language setting. *)
Definition oneSetting (blob : @Blob Marked) : bool :=
  match blob with
  | [] => true
  | x :: rest => forallb (fun y => String.eqb (snd y) (snd x)) rest
  end.

(** The blobs the component handed to the file reader. *)
Fixpoint submitted (cmds : list (@Cmd Marked)) : list (@Blob Marked) :=
  match cmds with
  | [] => []
  | ReadAsArrayBuffer blob _ :: r => blob :: submitted r
  | _ :: r => submitted r
  end.

(** The buffer content (the chunks concatenated) after a callback. *)
Definition afterCallback (buf : @Blob Marked) (cb : Callback) : @Blob Marked :=
  match cb with
  | CbStart => []
  | CbData blob => buf ++ blob
  | CbStop => buf
  end.

(** The buffer content once the queued callbacks have all run. *)
Definition afterQueue (buf : @Blob Marked) (q : list Callback) : @Blob Marked :=
  fold_left afterCallback q buf.

(** The buffer holds one setting now and after each queued callback. *)
Fixpoint queueSound (buf : @Blob Marked) (q : list Callback) : Prop :=
  match q with
  | [] => oneSetting buf = true
  | cb :: q' => oneSetting buf = true /\ queueSound (afterCallback buf cb) q'
  end.

Definition allMarked (lang : string) (blob : @Blob Marked) : Prop :=
  Forall (fun x => snd x = lang) blob.

(** What ties the device to the buffer [buf] and the selected language:
    what the recorder has gathered, and what the buffer will hold when
    the queue has run, was captured under the selected language. *)
Definition deviceSound (buf : @Blob Marked) (lang : string) (d : Device)
    : Prop :=
  queueSound buf (queue d) /\
  match state d with
  | Inactive => captured d = []
  | Recording =>
      allMarked lang (captured d) /\
      allMarked lang (afterQueue buf (queue d))
  end.

Definition systemSound (sys : System) : Prop :=
  deviceSound (concat (chunks (app sys))) (language (app sys)) (device sys) /\
  (recorderRef (app sys) = false -> state (device sys) = Inactive).

End WithPlatform.

End Capture.

(* ================================================================== *)
(** * Concrete collaborators, for running the components               *)
(* ================================================================== *)

Module Concrete.

(** A two-entry [languageMapping]. *)
Definition env : Receiver.Env :=
  {| Receiver.number := Z;
     Receiver.languageMapping := fun l =>
       if String.eqb l "de" then Some "deu_Latn"
       else if String.eqb l "en" then Some "eng_Latn"
       else None |}.

(** A decoder that yields one sample per byte. *)
Definition platform : Broadcaster.Platform :=
  {| Broadcaster.byte := unit;
     Broadcaster.sample := unit;
     Broadcaster.number := Z;
     Broadcaster.AudioBuffer := list unit;
     Broadcaster.decodeAudioData := fun bs => Some bs;
     Broadcaster.getChannelData := fun a _ => a |}.

(** 30 s and one sample of audio at 16 kHz. *)
Definition longAudio : list unit := repeat tt (Z.to_nat 480001).

End Concrete.

(* ================================================================== *)
(** * What a run of the broadcaster shows to the outside               *)
(* ================================================================== *)

Module Observed.

Import Broadcaster.

Section WithPlatform.

Context `{Platform}.

(** The model-load requests among [cmds]. *)
Definition isLoad (c : Cmd) : bool :=
  match c with PostLoad => true | _ => false end.

(** The calls on the recorder among [cmds]. *)
Definition isRecorderCall (c : Cmd) : bool :=
  match c with
  | RecorderStart | RecorderStop | RequestData => true
  | _ => false
  end.

(** The component asks the recorder to start. *)
Definition isStartCall (c : Cmd) : bool :=
  match c with RecorderStart => true | _ => false end.

(** The events whose handlers contain a [start()] call: the 'ready'
    message (line 91), the language selector (line 323) and the Reset
    button (line 330). *)
Definition startsRecorder (e : Event) : bool :=
  match e with
  | WorkerMessage Ready | SetLanguage _ | ClickReset => true
  | _ => false
  end.

(** The messages published on the channel, in order. *)
Fixpoint broadcastsOf (cmds : list Cmd) : list (option string) :=
  match cmds with
  | [] => []
  | DoBroadcast message _ :: r => message :: broadcastsOf r
  | _ :: r => broadcastsOf r
  end.

(** [e.data.output[0]] of the 'complete' messages of a trace, in order. *)
Fixpoint completions (tr : list Event) : list (option string) :=
  match tr with
  | [] => []
  | WorkerMessage (Complete out) :: r => nth_error out 0 :: completions r
  | _ :: r => completions r
  end.

(** The audio windows posted to the worker, in order. *)
Fixpoint windowsOf (cmds : list Cmd) : list (list sample) :=
  match cmds with
  | [] => []
  | PostGenerate audio _ :: r => audio :: windowsOf r
  | _ :: r => windowsOf r
  end.

(** A file read that ends with data the audio context can decode. *)
Definition decodable (e : Event) : bool :=
  match e with
  | LoadEnd arrayBuffer _ =>
      match decodeAudioData arrayBuffer with Some _ => true | None => false end
  | _ => false
  end.

(** The chunks the recorder delivered during a trace, in order. *)
Fixpoint deliveries (tr : list Event) : list Blob :=
  match tr with
  | [] => []
  | OnDataAvailable data :: r => data :: deliveries r
  | _ :: r => deliveries r
  end.

Definition isOnStart (e : Event) : bool :=
  match e with OnStart => true | _ => false end.

Definition isGrant (e : Event) : bool :=
  match e with StreamGranted => true | _ => false end.

(** The recorder callback that tells whether recording is on. *)
Definition recordingAfter (e : Event) (before : bool) : bool :=
  match e with
  | OnStart => true
  | OnStop => false
  | _ => before
  end.

End WithPlatform.

Section WithRecorder.

Context {P : Platform}.

(** The audio on its way to the buffer: what the buffer will hold once the
    queued callbacks have run, followed by what the recorder has gathered
    and not yet delivered. *)
Definition heard (sys : @Capture.System P) : @Blob (@Capture.Marked P) :=
  Capture.afterQueue (concat (chunks (Capture.app sys)))
    (Capture.queue (Capture.device sys))
  ++ Capture.captured (Capture.device sys).

(** The worker reports a finished transcription. *)
Definition isCompletion (a : @Capture.Action P) : bool :=
  match a with
  | Capture.Worker (Complete _) => true
  | _ => false
  end.

End WithRecorder.

End Observed.

(* ================================================================== *)
(** * Properties of the receiver                                       *)
(* ================================================================== *)

Section ReceiverFacts.

Context `{Receiver.Env}.
Import Receiver.

Lemma translate_gate_held (s : State) :
  disabled s = true -> translate s = (s, []).
Proof. intros Hd. unfold translate. now rewrite Hd. Qed.

Lemma translate_disabled (s : State) :
  disabled (fst (translate s)) =
  disabled s || negb (sameLanguage (sourceLanguageRef s) (targetLanguageRef s)).
Proof.
  unfold translate.
  destruct (disabled s) eqn:Hd; simpl; [ exact Hd | ].
  destruct (sameLanguage _ _); simpl; [ exact Hd | reflexivity ].
Qed.

Lemma translate_posts_iff_granted (s : State) :
  posts (snd (translate s)) =
  if negb (disabled s) && disabled (fst (translate s))
  then [PostMessage (inputRef s) (sourceLanguageRef s) (targetLanguageRef s)]
  else [].
Proof.
  unfold translate.
  destruct (disabled s) eqn:Hd; simpl; [ reflexivity | ].
  destruct (sameLanguage _ _); simpl; [ now rewrite Hd | reflexivity ].
Qed.

Lemma mount_fst (s : State) : fst (step s Mount) = fst (translate s).
Proof. simpl. now destruct (translate s). Qed.

Lemma mount_snd (s : State) :
  snd (step s Mount) = snd (translate s) ++ [Subscribe].
Proof. simpl. now destruct (translate s). Qed.

(** The gate flag after one event, from the flag before it. *)
Lemma receiver_step_gate (s : State) (e : Event) :
  disabled (fst (step s e)) =
  negb (releases e) && (disabled s || granted s e).
Proof.
  destruct e as [ | message lang | value | m ]; unfold granted, releases.
  - rewrite mount_fst, translate_disabled.
    now destruct (disabled s), (sameLanguage _ _).
  - cbn [step]. rewrite translate_disabled.
    cbn [disabled setSourceLanguage setInput sourceLanguageRef
         targetLanguageRef].
    now destruct (disabled s), (sameLanguage _ _).
  - cbn [step]. rewrite translate_disabled.
    cbn [disabled setTargetLanguage sourceLanguageRef targetLanguageRef].
    now destruct (disabled s), (sameLanguage _ _).
  - destruct m; cbn [step fst onMessageReceived]; cbn;
      now rewrite ?orb_false_r.
Qed.

Lemma receiver_run_cons (s : State) (e : Event) (tr : list Event) :
  run s (e :: tr) =
  (fst (run (fst (step s e)) tr),
   snd (step s e) ++ snd (run (fst (step s e)) tr)).
Proof.
  simpl. destruct (step s e) as [s1 c1]. simpl.
  now destruct (run s1 tr).
Qed.

Lemma receiver_run_app (tr1 tr2 : list Event) : forall s,
  run s (tr1 ++ tr2) =
  (fst (run (fst (run s tr1)) tr2),
   snd (run s tr1) ++ snd (run (fst (run s tr1)) tr2)).
Proof.
  induction tr1 as [ | e tr1 IH ]; intros s.
  - simpl. now destruct (run s tr2).
  - rewrite <- app_comm_cons, !receiver_run_cons, IH. simpl.
    now rewrite app_assoc.
Qed.

(** A request reaches the worker exactly when the event is granted. *)
Lemma receiver_step_posts (s : State) (e : Event) :
  length (posts (snd (step s e))) = if granted s e then 1 else 0.
Proof.
  destruct e as [ | message lang | value | m ]; unfold granted.
  - rewrite mount_snd, mount_fst. unfold posts. rewrite filter_app.
    fold (posts (snd (translate s))). rewrite translate_posts_iff_granted.
    cbn [filter isPost]. rewrite app_nil_r.
    now destruct (negb (disabled s) && disabled (fst (translate s))).
  - cbn [step]. rewrite translate_posts_iff_granted.
    cbn [disabled setSourceLanguage setInput].
    now destruct (negb (disabled s) && _).
  - cbn [step]. rewrite translate_posts_iff_granted.
    cbn [disabled setTargetLanguage].
    now destruct (negb (disabled s) && _).
  - reflexivity.
Qed.

(** The flag the source keeps is the gate of the specification. *)
Lemma gate_tracks_outstanding (tr : list Event) : forall s,
  denied (fst (run s tr)) = outstanding s tr (disabled s).
Proof.
  induction tr as [ | e tr IH ]; intros s; [ reflexivity | ].
  rewrite receiver_run_cons. cbn [fst outstanding].
  rewrite IH, receiver_step_gate.
  now destruct (releases e).
Qed.

(** While the gate is held and no 'complete' arrives, it stays held and
    nothing is posted to the worker. *)
Lemma held_until_complete (tr : list Event) : forall s,
  disabled s = true ->
  forallb (fun e => negb (releases e)) tr = true ->
  disabled (fst (run s tr)) = true /\ posts (snd (run s tr)) = [].
Proof.
  induction tr as [ | e tr IH ]; intros s Hd Hnr; [ now split | ].
  simpl in Hnr. apply andb_true_iff in Hnr as [He Hnr].
  rewrite receiver_run_cons. cbn [fst snd].
  assert (Hd1 : disabled (fst (step s e)) = true).
  { rewrite receiver_step_gate, He, Hd. reflexivity. }
  destruct (IH _ Hd1 Hnr) as [IH1 IH2].
  split; [ exact IH1 | ].
  unfold posts in *. rewrite filter_app, IH2, app_nil_r.
  destruct e as [ | message lang | value | m ].
  - rewrite mount_snd, filter_app, translate_gate_held by exact Hd.
    reflexivity.
  - simpl. now rewrite translate_gate_held.
  - simpl. now rewrite translate_gate_held.
  - reflexivity.
Qed.

(** C9. When [translate] is called while the translate gate is held
    ([disabled.current] is true), the call is dropped: the state, hence
    the output text, the input text, the source and target languages and
    the gate itself, is unchanged and no call is made on the worker; this
    holds in particular when source and target language are equal, where
    the output is then not set to the input. *)
Theorem translate_dropped_while_in_flight (s : State) :
  disabled s = true ->
  translate s = (s, []) /\
  output (fst (translate s)) = output s /\
  input (fst (translate s)) = input s /\
  inputRef (fst (translate s)) = inputRef s /\
  sourceLanguageRef (fst (translate s)) = sourceLanguageRef s /\
  targetLanguageRef (fst (translate s)) = targetLanguageRef s /\
  disabled (fst (translate s)) = true /\
  posts (snd (translate s)) = [].
Proof.
  intros Hd. rewrite (translate_gate_held s Hd). simpl.
  repeat split; auto.
Qed.

(** C6, amended. For every text [t] and language [L], when no
    translation is in flight, [translate] on input [t] with source and
    target language both [L] posts nothing to the worker, leaves the gate
    as it is and sets the output to [t]. *)
Theorem translate_same_language (s : State) (t L : string) :
  disabled s = false ->
  inputRef s = t ->
  sourceLanguageRef s = Some L ->
  targetLanguageRef s = L ->
  translate s = (setOutput t s, []) /\
  output (fst (translate s)) = t /\
  disabled (fst (translate s)) = false /\
  posts (snd (translate s)) = [].
Proof.
  intros Hd Hin Hsrc Htgt. unfold translate.
  rewrite Hd, Hsrc, Htgt, Hin. simpl. rewrite String.eqb_refl. simpl.
  repeat split; auto.
Qed.

(** C4, amended. When the target language is changed while a translation
    is in flight, the new target is recorded, no request is issued and
    the request in flight is not interrupted; its completion sets the
    output to the result for the old target, releases the gate and issues
    no request either. The new target is used by the next call of
    [translate]. *)
Theorem target_change_in_flight (s : State) (value result : string) :
  disabled s = true ->
  let s1 := fst (step s (TargetChange value)) in
  let s2 := fst (step s1 (WorkerMessage (Complete result))) in
  s1 = setTargetLanguage value s /\
  disabled s1 = true /\
  snd (step s (TargetChange value)) = [] /\
  snd (step s1 (WorkerMessage (Complete result))) = [] /\
  output s2 = result /\
  disabled s2 = false /\
  targetLanguageRef s2 = value /\
  inputRef s2 = inputRef s /\
  posts (snd (translate s2)) =
    (if sameLanguage (sourceLanguageRef s) value then []
     else [PostMessage (inputRef s) (sourceLanguageRef s) value]).
Proof.
  intros Hd. cbn [step].
  assert (Hd1 : disabled (setTargetLanguage value s) = true) by exact Hd.
  rewrite (translate_gate_held _ Hd1). cbn [fst snd].
  repeat split; auto.
  rewrite translate_posts_iff_granted, translate_disabled. simpl.
  now destruct (sameLanguage (sourceLanguageRef s) value).
Qed.

End ReceiverFacts.

(* ================================================================== *)
(** * Properties of the broadcaster                                    *)
(* ================================================================== *)

Section BroadcasterFacts.

Context `{Broadcaster.Platform}.
Import Broadcaster Observed.

Lemma MAX_SAMPLES_value : MAX_SAMPLES = 480000%Z.
Proof. reflexivity. Qed.

(** [slice(-n)] keeps the last [n] elements. *)
Lemma slice_negative (n : Z) (a : list sample) :
  (0 < n)%Z ->
  slice (- n) a = skipn (length a - Z.to_nat n) a.
Proof.
  intros Hn. unfold slice.
  replace (- n <? 0)%Z with true by (symmetry; apply Z.ltb_lt; lia).
  f_equal. lia.
Qed.

Lemma broadcaster_run_cons (s : State) (e : Event) (tr : list Event) :
  run s (e :: tr) =
  (fst (run (fst (step s e)) tr),
   snd (step s e) ++ snd (run (fst (step s e)) tr)).
Proof.
  simpl. destruct (step s e) as [s1 c1]. simpl.
  now destruct (run s1 tr).
Qed.

Lemma broadcaster_run_app (tr1 tr2 : list Event) : forall s,
  run s (tr1 ++ tr2) =
  (fst (run (fst (run s tr1)) tr2),
   snd (run s tr1) ++ snd (run (fst (run s tr1)) tr2)).
Proof.
  induction tr1 as [ | e tr1 IH ]; intros s.
  - simpl. now destruct (run s tr2).
  - rewrite <- app_comm_cons, !broadcaster_run_cons, IH. simpl.
    now rewrite app_assoc.
Qed.

(** Which events touch the buffer. *)
Lemma step_chunks (s : State) (e : Event) :
  chunks (fst (step s e)) =
  match e with
  | OnStart => []
  | OnDataAvailable data =>
      if (0 <? size data)%nat then chunks s ++ [data] else chunks s
  | _ => chunks s
  end.
Proof.
  destruct e as [ | | data | | | ab lang | m | | e | | | ];
    cbn [step fst]; try reflexivity.
  - unfold ondataavailable. now destruct (0 <? size data)%nat.
  - now destruct m.
  - now destruct (isNull s).
  - now destruct (isReady s).
  - now destruct (isReady s).
Qed.

Lemma step_keeps_positive (s : State) (e : Event) :
  allPositive (chunks s) -> allPositive (chunks (fst (step s e))).
Proof.
  intros Hpos. rewrite step_chunks. unfold allPositive in *.
  destruct e; auto.
  destruct (0 <? size data)%nat eqn:Hsz; auto.
  apply Forall_app. split; auto.
  constructor; auto. now apply Nat.ltb_lt.
Qed.

Lemma run_keeps_positive (tr : list Event) : forall s,
  allPositive (chunks s) -> allPositive (chunks (fst (run s tr))).
Proof.
  induction tr as [ | e tr IH ]; intros s Hpos; [ exact Hpos | ].
  rewrite broadcaster_run_cons. cbn [fst]. apply IH. now apply step_keeps_positive.
Qed.

Lemma init_positive : allPositive (chunks init).
Proof. constructor. Qed.

(** Empty chunks add nothing to a blob. *)
Lemma concat_positive (cs : list Blob) :
  concat (filter (fun c => (0 <? size c)%nat) cs) = concat cs.
Proof.
  induction cs as [ | c cs IH ]; [ reflexivity | ].
  simpl. destruct (0 <? size c)%nat eqn:Hsz; simpl; rewrite IH; auto.
  apply Nat.ltb_ge in Hsz. unfold size in Hsz.
  destruct c; [ reflexivity | simpl in Hsz; lia ].
Qed.

Lemma positive_blob (cs : list Blob) :
  allPositive cs -> cs <> [] -> (0 < size (newBlob cs))%nat.
Proof.
  intros Hpos Hne. destruct cs as [ | c cs ]; [ congruence | ].
  inversion Hpos as [ | ? ? Hc _ ]; subst.
  unfold newBlob, size in *. simpl. rewrite length_app. lia.
Qed.

(** A run of data deliveries appends the non-empty chunks in order and
    touches nothing else. *)
Lemma run_deliveries (cs : list Blob) : forall s,
  fst (run s (map OnDataAvailable cs)) =
  setChunks (fun prev => prev ++ filter (fun c => (0 <? size c)%nat) cs) s.
Proof.
  induction cs as [ | c cs IH ]; intros s.
  - destruct s; unfold setChunks; simpl. now rewrite app_nil_r.
  - cbn [map]. rewrite broadcaster_run_cons. cbn [fst step]. rewrite IH.
    unfold ondataavailable. cbn [filter].
    destruct (0 <? size c)%nat; cbn [fst].
    + destruct s; unfold setChunks; simpl. now rewrite <- app_assoc.
    + reflexivity.
Qed.

Lemma processing_reads (s : State) :
  processing s =
  if recorderRef s && recording s && negb (isProcessing s) && isReady s
  then if (0 <? length (chunks s))%nat
       then [ReadAsArrayBuffer (newBlob (chunks s)) (language s)]
       else [RequestData]
  else [].
Proof.
  unfold processing, isReady.
  destruct (recorderRef s), (recording s), (isProcessing s), (status s);
    reflexivity.
Qed.

Lemma processing_busy (s : State) :
  isProcessing s = true -> processing s = [].
Proof.
  intros Hp. rewrite processing_reads, Hp.
  now rewrite andb_false_r.
Qed.

Lemma drain_reads (s : State) (blob : Blob) :
  drain s = Some blob ->
  blob = newBlob (chunks s) /\ chunks s <> [].
Proof.
  unfold drain. rewrite processing_reads.
  destruct (recorderRef s && recording s && negb (isProcessing s) && isReady s);
    [ | discriminate ].
  destruct (chunks s) as [ | c cs ] eqn:Hc; simpl; [ discriminate | ].
  intros [= <-]. split; [ reflexivity | discriminate ].
Qed.

(** The calls of an event that start a file read. *)
Lemma step_reads (s : State) (e : Event) :
  readsOf (snd (step s e)) =
  match e with Effect => readsOf (processing s) | _ => [] end.
Proof.
  destruct e as [ | | data | | | ab lang | m | | e | | | ];
    cbn [step snd]; try reflexivity.
  - unfold ondataavailable. now destruct (0 <? size data)%nat.
  - unfold ontimeout. now destruct (recorderRef s).
  - unfold onloadend. now destruct (decodeAudioData ab).
  - destruct m; simpl; unfold recorderCall; now destruct (recorderRef s).
  - now destruct (isNull s).
  - destruct (isReady s); [ | reflexivity ].
    simpl. unfold recorderCall. now destruct (recorderRef s).
  - destruct (isReady s); [ | reflexivity ].
    simpl. unfold onReset, recorderCall. now destruct (recorderRef s).
  - unfold recorderCall. now destruct (recorderRef s).
Qed.

(** The gate flag after one event, from the flag before it. *)
Lemma broadcaster_step_gate (s : State) (e : Event) :
  isProcessing (fst (step s e)) =
  negb (releases e) && (isProcessing s || starts e).
Proof.
  destruct e as [ | | data | | | ab lang | m | | e | | | ];
    cbn [step fst releases starts negb andb]; rewrite ?orb_false_r;
    try reflexivity.
  - unfold ondataavailable. now destruct (0 <? size data)%nat.
  - destruct m; cbn; rewrite ?orb_false_r, ?orb_true_r; reflexivity.
  - now destruct (isNull s).
  - now destruct (isReady s).
  - now destruct (isReady s).
Qed.

(** A window is read exactly when the processing step is granted. *)
Lemma broadcaster_step_reads (s : State) (e : Event) :
  length (readsOf (snd (step s e))) = if granted s e then 1 else 0.
Proof.
  rewrite step_reads. unfold granted, drain.
  destruct e; try reflexivity.
  rewrite processing_reads.
  destruct (recorderRef s && recording s && negb (isProcessing s) && isReady s);
    [ | reflexivity ].
  now destruct (0 <? length (chunks s))%nat.
Qed.

Lemma gate_tracks_generating (tr : list Event) : forall s,
  denied (fst (run s tr)) = generating tr (isProcessing s).
Proof.
  induction tr as [ | e tr IH ]; intros s; [ reflexivity | ].
  rewrite broadcaster_run_cons. cbn [fst generating].
  rewrite IH, broadcaster_step_gate.
  now destruct (releases e).
Qed.

(** While [isProcessing] is set and no 'complete' arrives, it stays set
    and no window is read. *)
Lemma busy_until_complete (tr : list Event) : forall s,
  isProcessing s = true ->
  forallb (fun e => negb (releases e)) tr = true ->
  isProcessing (fst (run s tr)) = true /\ readsOf (snd (run s tr)) = [].
Proof.
  induction tr as [ | e tr IH ]; intros s Hp Hnr; [ now split | ].
  simpl in Hnr. apply andb_true_iff in Hnr as [He Hnr].
  rewrite broadcaster_run_cons. cbn [fst snd].
  assert (Hp1 : isProcessing (fst (step s e)) = true).
  { rewrite broadcaster_step_gate, He, Hp. reflexivity. }
  destruct (IH _ Hp1 Hnr) as [IH1 IH2].
  split; [ exact IH1 | ].
  unfold readsOf in *. rewrite filter_app, IH2, app_nil_r.
  fold (readsOf (snd (step s e))). rewrite step_reads.
  destruct e; auto. now rewrite processing_busy.
Qed.

Lemma deliveries_app (tr1 tr2 : list Event) :
  deliveries (tr1 ++ tr2) = deliveries tr1 ++ deliveries tr2.
Proof.
  induction tr1 as [ | e tr1 IH ]; [ reflexivity | ].
  destruct e; cbn; now rewrite IH.
Qed.

Lemma chunks_without_start (tr : list Event) : forall s,
  forallb (fun e => negb (isOnStart e)) tr = true ->
  chunks (fst (run s tr)) =
  chunks s ++ filter (fun c => (0 <? size c)%nat) (deliveries tr).
Proof.
  induction tr as [ | e tr IH ]; intros s Hno;
    [ cbn; now rewrite app_nil_r | ].
  cbn [forallb] in Hno. apply andb_true_iff in Hno as [He Hno].
  rewrite broadcaster_run_cons. cbn [fst]. rewrite IH by exact Hno.
  rewrite step_chunks.
  destruct e; try reflexivity; [ discriminate | ].
  cbn [deliveries filter].
  destruct (0 <? size data)%nat; [ | reflexivity ].
  now rewrite <- app_assoc.
Qed.

Lemma windowsOf_app (c1 c2 : list Cmd) :
  windowsOf (c1 ++ c2) = windowsOf c1 ++ windowsOf c2.
Proof.
  induction c1 as [ | c c1 IH ]; [ reflexivity | ].
  destruct c; cbn; now rewrite IH.
Qed.

Lemma onloadend_windows (arrayBuffer : list byte) (lang : string) :
  length (windowsOf (onloadend arrayBuffer lang)) =
    Nat.b2n (decodable (LoadEnd arrayBuffer lang)) /\
  Forall (fun w => (Z.of_nat (length w) <= MAX_SAMPLES)%Z)
         (windowsOf (onloadend arrayBuffer lang)).
Proof.
  unfold onloadend, decodable.
  destruct (decodeAudioData arrayBuffer) as [decoded | ];
    [ | split; [ reflexivity | constructor ] ].
  split; [ reflexivity | ].
  cbn [windowsOf]. constructor; [ | constructor ].
  destruct (MAX_SAMPLES <? Z.of_nat (length (getChannelData decoded 0)))%Z eqn:Hlen.
  - apply Z.ltb_lt in Hlen.
    rewrite slice_negative by (rewrite MAX_SAMPLES_value; lia).
    rewrite length_skipn. rewrite MAX_SAMPLES_value in *. lia.
  - now apply Z.ltb_ge in Hlen.
Qed.

Lemma step_windows (s : State) (e : Event) :
  windowsOf (snd (step s e)) =
  match e with
  | LoadEnd arrayBuffer lang => windowsOf (onloadend arrayBuffer lang)
  | _ => []
  end.
Proof.
  destruct e as [ | | data | | | ab lang | m | | e | | | ];
    cbn [step snd]; try reflexivity.
  - unfold ondataavailable. now destruct (0 <? size data)%nat.
  - unfold ontimeout. now destruct (recorderRef s).
  - destruct m; cbn; unfold recorderCall; now destruct (recorderRef s).
  - now destruct (isNull s).
  - destruct (isReady s); [ | reflexivity ].
    cbn. unfold recorderCall. now destruct (recorderRef s).
  - destruct (isReady s); [ | reflexivity ].
    cbn. unfold onReset, recorderCall. now destruct (recorderRef s).
  - rewrite processing_reads.
    destruct (recorderRef s && recording s && negb (isProcessing s) && isReady s);
      [ | reflexivity ].
    now destruct (0 <? length (chunks s))%nat.
  - unfold recorderCall. now destruct (recorderRef s).
Qed.

(** A window is posted exactly when a file read ends with decodable data;
    the gate is not looked at. *)
Lemma step_windows_count (s : State) (e : Event) :
  length (windowsOf (snd (step s e))) = Nat.b2n (decodable e).
Proof.
  rewrite step_windows.
  destruct e as [ | | | | | ab lang | | | | | | ]; try reflexivity.
  apply onloadend_windows.
Qed.

Lemma granted_not_busy (s : State) (e : Event) :
  granted s e = true -> isProcessing s = false.
Proof.
  unfold granted, drain. destruct e; try discriminate.
  destruct (isProcessing s) eqn:Hp; [ | reflexivity ].
  now rewrite processing_busy.
Qed.

(** C3. When the decoded signal has more than [MAX_SAMPLES]
    (16000 x 30) samples, the window posted to the transcription worker
    has exactly [MAX_SAMPLES] samples and is the end of the signal: the
    signal is some dropped prefix followed by the window. A signal of at
    most [MAX_SAMPLES] samples is posted as it is. *)
Theorem window_is_trailing_MAX_SAMPLES
    (arrayBuffer : list byte) (lang : string) (decoded : AudioBuffer) :
  decodeAudioData arrayBuffer = Some decoded ->
  let audio := getChannelData decoded 0 in
  ((MAX_SAMPLES < Z.of_nat (length audio))%Z ->
     exists w dropped,
       onloadend arrayBuffer lang = [PostGenerate w lang] /\
       Z.of_nat (length w) = MAX_SAMPLES /\
       audio = dropped ++ w /\
       w = skipn (length audio - Z.to_nat MAX_SAMPLES) audio) /\
  ((Z.of_nat (length audio) <= MAX_SAMPLES)%Z ->
     onloadend arrayBuffer lang = [PostGenerate audio lang]).
Proof.
  intros Hdec audio. unfold onloadend. rewrite Hdec. fold audio.
  split; intros Hlen.
  - apply Z.ltb_lt in Hlen as Hb. rewrite Hb.
    rewrite slice_negative by (rewrite MAX_SAMPLES_value; lia).
    exists (skipn (length audio - Z.to_nat MAX_SAMPLES) audio),
           (firstn (length audio - Z.to_nat MAX_SAMPLES) audio).
    repeat split.
    + rewrite length_skipn. rewrite MAX_SAMPLES_value in *. lia.
    + symmetry. apply firstn_skipn.
  - apply Z.ltb_ge in Hlen. now rewrite Hlen.
Qed.

(** C1, amended. After a recorder start, a sequence of delivered chunks
    leaves in the buffer the non-empty ones in delivery order; the
    processing step reads exactly the delivered chunks concatenated in
    that order and leaves the buffer as it is. The buffer is emptied by
    the recorder-start handler only: a delivery appends to it or leaves
    it, every other event leaves it, and over a run without a recorder
    start it only grows. So the next processing step reads the same
    chunks again, followed by those delivered since. *)
Theorem buffer_read_in_order_and_kept (s : State) (cs : list Blob) :
  let s1 := fst (run (onstart s) (map OnDataAvailable cs)) in
  chunks (onstart s) = [] /\
  chunks s1 = filter (fun c => (0 <? size c)%nat) cs /\
  newBlob (chunks s1) = concat cs /\
  (forall blob, drain s1 = Some blob -> blob = concat cs) /\
  (recorderRef s = true -> isProcessing s = false ->
   status s = StatusReady -> chunks s1 <> [] ->
   processing s1 = [ReadAsArrayBuffer (concat cs) (language s)]) /\
  step s1 Effect = (s1, processing s1) /\
  (forall cs2,
     newBlob (chunks (fst (run (fst (step s1 Effect))
                               (map OnDataAvailable cs2)))) =
     concat (cs ++ cs2)) /\
  (forall s0 e,
     chunks (fst (step s0 e)) =
     match e with
     | OnStart => []
     | OnDataAvailable data =>
         if (0 <? size data)%nat then chunks s0 ++ [data] else chunks s0
     | _ => chunks s0
     end) /\
  (forall s0 tr,
     forallb (fun e => negb (isOnStart e)) tr = true ->
     chunks (fst (run s0 tr)) =
     chunks s0 ++ filter (fun c => (0 <? size c)%nat) (deliveries tr)).
Proof.
  intros s1.
  assert (Hs1 : s1 = setChunks
                       (fun prev => prev ++ filter (fun c => (0 <? size c)%nat) cs)
                       (onstart s)) by apply run_deliveries.
  assert (Hc : chunks s1 = filter (fun c => (0 <? size c)%nat) cs)
    by (rewrite Hs1; reflexivity).
  assert (Hb : newBlob (chunks s1) = concat cs)
    by (rewrite Hc; apply concat_positive).
  split; [ reflexivity | ].
  split; [ exact Hc | ].
  split; [ exact Hb | ].
  split.
  { intros blob Hd. apply drain_reads in Hd as [-> _]. exact Hb. }
  split.
  { intros Hr Hp Hst Hne. rewrite processing_reads, Hb.
    assert (Hf : recorderRef s1 = recorderRef s /\ recording s1 = true /\
                 isProcessing s1 = isProcessing s /\ status s1 = status s /\
                 language s1 = language s)
      by (rewrite Hs1; repeat split).
    destruct Hf as (-> & -> & -> & Hst1 & ->).
    unfold isReady. rewrite Hst1, Hr, Hp, Hst. cbn.
    destruct (chunks s1); [ congruence | reflexivity ]. }
  split; [ reflexivity | ].
  split.
  { intros cs2. cbn [step fst]. rewrite run_deliveries.
    cbn [chunks setChunks]. rewrite Hc. unfold newBlob.
    rewrite <- filter_app. apply concat_positive. }
  split; [ apply step_chunks | ].
  intros s0 tr Hno. now apply chunks_without_start.
Qed.

(** C7. A zero-length chunk is not appended to the buffer: the handler
    leaves the state as it is and sets one timer of 25 ms, whose callback
    makes one [requestData()] call. The processing step never reads an
    empty buffer: with no chunk it starts no read, and every blob it
    reads in a run of the component has a positive size. *)
Theorem empty_chunk_retry (s : State) (data : Blob) :
  size data = 0%nat ->
  ondataavailable data s = (s, [SetTimeout 25]) /\
  chunks (fst (step s (OnDataAvailable data))) = chunks s /\
  (recorderRef s = true -> step s TimerFired = (s, [RequestData])) /\
  (forall s0, chunks s0 = [] ->
     drain s0 = None /\ readsOf (processing s0) = []) /\
  (forall tr blob,
     drain (fst (run init tr)) = Some blob -> (0 < size blob)%nat).
Proof.
  intros Hsz. unfold ondataavailable. cbn [step fst]. unfold ondataavailable.
  rewrite Hsz. cbn.
  split; [ reflexivity | ].
  split; [ reflexivity | ].
  split.
  { intros Hr. unfold ontimeout. now rewrite Hr. }
  split.
  { intros s0 Hc. unfold drain. rewrite processing_reads, Hc. cbn.
    now destruct (recorderRef s0 && recording s0 && negb (isProcessing s0)
                  && isReady s0). }
  intros tr blob Hd. apply drain_reads in Hd as [-> Hne].
  apply positive_blob; [ | exact Hne ].
  apply run_keeps_positive, init_positive.
Qed.

(** C10. Every chunk stored in the buffer has a positive byte length:
    the buffer is empty at first, the data-available handler appends a
    chunk only when its size is positive, the recorder-start handler
    empties the buffer, and no other event touches it; so every event
    preserves the invariant and it holds after every run. *)
Theorem chunks_always_positive :
  allPositive (chunks init) /\
  (forall s, chunks (onstart s) = []) /\
  (forall s data,
     chunks (fst (ondataavailable data s)) =
     if (0 <? size data)%nat then chunks s ++ [data] else chunks s) /\
  (forall s e,
     allPositive (chunks s) -> allPositive (chunks (fst (step s e)))) /\
  (forall tr, allPositive (chunks (fst (run init tr)))).
Proof.
  split; [ apply init_positive | ].
  split; [ reflexivity | ].
  split.
  { intros s data. unfold ondataavailable.
    now destruct (0 <? size data)%nat. }
  split; [ apply step_keeps_positive | ].
  intros tr. apply run_keeps_positive, init_positive.
Qed.

End BroadcasterFacts.

Section BroadcasterFrame.
Context `{Broadcaster.Platform}.
Import Broadcaster.

Lemma step_language (s : State) (e : Event) :
  language (fst (step s e)) =
  match e with
  | SetLanguage l => if isReady s then l else language s
  | _ => language s
  end.
Proof.
  destruct e as [ | | data | | | ab lang | m | | e | | | ];
    cbn [step fst]; try reflexivity.
  - unfold ondataavailable. now destruct (0 <? size data)%nat.
  - now destruct m.
  - now destruct (isNull s).
  - now destruct (isReady s).
  - now destruct (isReady s).
Qed.

Lemma step_recorderRef (s : State) (e : Event) :
  recorderRef (fst (step s e)) =
  match e with
  | StreamGranted => true
  | Unmount => false
  | _ => recorderRef s
  end.
Proof.
  destruct e as [ | | data | | | ab lang | m | | e | | | ];
    cbn [step fst]; try reflexivity.
  - unfold ondataavailable. now destruct (0 <? size data)%nat.
  - now destruct m.
  - now destruct (isNull s).
  - now destruct (isReady s).
  - now destruct (isReady s).
Qed.

Lemma recorderCall_guarded (c c' : Cmd) (s : State) :
  In c' (recorderCall c s) -> recorderRef s = true.
Proof. unfold recorderCall. now destruct (recorderRef s). Qed.

Lemma step_start_guarded (s : State) (e : Event) :
  In RecorderStart (snd (step s e)) -> recorderRef s = true.
Proof.
  destruct e as [ | | data | | | ab lang | m | | e | | | ];
    cbn [step snd]; try (now intros []).
  - unfold ondataavailable.
    destruct (0 <? size data)%nat; simpl; intuition discriminate.
  - unfold ontimeout.
    destruct (recorderRef s); simpl; intuition discriminate.
  - unfold onloadend.
    destruct (decodeAudioData ab); simpl; intuition discriminate.
  - destruct m; simpl; try (intuition discriminate);
      apply recorderCall_guarded.
  - destruct (isNull s); simpl; intuition discriminate.
  - destruct (isReady s); simpl; [ | now intros [] ].
    intros Hin. apply in_app_or in Hin as [Hin | Hin];
      now apply recorderCall_guarded in Hin.
  - destruct (isReady s); simpl; [ | now intros [] ].
    unfold onReset.
    intros Hin. apply in_app_or in Hin as [Hin | Hin];
      now apply recorderCall_guarded in Hin.
  - rewrite processing_reads.
    destruct (recorderRef s); [ reflexivity | now intros [] ].
  - apply recorderCall_guarded.
Qed.
End BroadcasterFrame.

Section CaptureFacts.

Context {P : Broadcaster.Platform}.
Import Broadcaster Capture.

Local Abbreviation MBlob := (@Blob Marked).
Local Abbreviation MState := (@State Marked).
Local Abbreviation MCmd := (@Cmd Marked).

Lemma allMarked_oneSetting (lang : string) (blob : MBlob) :
  allMarked lang blob -> oneSetting blob = true.
Proof.
  intros Hall. destruct blob as [ | x rest ]; [ reflexivity | ].
  inversion Hall as [ | ? ? Hx Hrest ]; subst.
  simpl. apply forallb_forall. intros y Hy.
  apply String.eqb_eq.
  unfold allMarked in Hrest. rewrite Forall_forall in Hrest.
  now apply Hrest.
Qed.

Lemma afterQueue_app (q1 q2 : list (Callback)) (buf : MBlob) :
  afterQueue buf (q1 ++ q2) = afterQueue (afterQueue buf q1) q2.
Proof. apply fold_left_app. Qed.

Lemma queueSound_now (q : list (Callback)) : forall buf,
  queueSound buf q -> oneSetting buf = true.
Proof. destruct q; simpl; tauto. Qed.

Lemma queueSound_app (q1 q2 : list (Callback)) : forall buf,
  queueSound buf (q1 ++ q2) <->
  queueSound buf q1 /\ queueSound (afterQueue buf q1) q2.
Proof.
  induction q1 as [ | cb q1 IH ]; intros buf.
  - simpl. split; [ | tauto ].
    intros Hq. split; [ | exact Hq ]. exact (queueSound_now _ _ Hq).
  - simpl. rewrite IH. tauto.
Qed.

Lemma queueSound_end (q : list (Callback)) (buf : MBlob) :
  queueSound buf q -> oneSetting (afterQueue buf q) = true.
Proof.
  intros Hq. rewrite <- (app_nil_r q) in Hq.
  apply queueSound_app in Hq as [_ Hq]. exact Hq.
Qed.

Lemma start_sound (buf : MBlob) (lang : string) (d : Device) :
  deviceSound buf lang d -> deviceSound buf lang (start d).
Proof.
  intros [Hq Hst]. unfold start.
  destruct (state d) eqn:Hs; [ | split; [ exact Hq | now rewrite Hs ] ].
  split; cbn [queue state captured].
  - apply queueSound_app. split; [ exact Hq | ].
    simpl. split; [ | reflexivity ]. now apply queueSound_end.
  - rewrite afterQueue_app. simpl. split; constructor.
Qed.

Lemma stop_sound (buf : MBlob) (lang : string) (d : Device) :
  deviceSound buf lang d ->
  (forall lang', deviceSound buf lang' (stop d)) /\
  state (stop d) = Inactive.
Proof.
  intros [Hq Hst]. unfold stop.
  destruct (state d) eqn:Hs.
  - split; [ | exact Hs ]. intros lang'. split; [ exact Hq | now rewrite Hs ].
  - destruct Hst as [Hcap Hend].
    split; [ | reflexivity ]. intros lang'.
    split; cbn [queue state captured]; [ | reflexivity ].
    apply queueSound_app. split; [ exact Hq | ].
    assert (Hone : oneSetting (afterQueue buf (queue d) ++ captured d) = true).
    { apply (allMarked_oneSetting lang). apply Forall_app. now split. }
    simpl. repeat split; auto. now apply queueSound_end.
Qed.

Lemma requestData_sound (buf : MBlob) (lang : string) (d : Device) :
  deviceSound buf lang d -> deviceSound buf lang (requestData d).
Proof.
  intros [Hq Hst]. unfold requestData.
  destruct (state d) eqn:Hs; [ split; [ exact Hq | now rewrite Hs ] | ].
  destruct Hst as [Hcap Hend].
  assert (Hall : allMarked lang (afterQueue buf (queue d) ++ captured d)).
  { apply Forall_app. now split. }
  split; cbn [queue state captured].
  - apply queueSound_app. split; [ exact Hq | ].
    simpl. split; [ now apply queueSound_end | ].
    now apply (allMarked_oneSetting lang).
  - split; [ constructor | ]. rewrite afterQueue_app. exact Hall.
Qed.

Lemma capture_sound (buf : MBlob) (lang : string) (b : @byte P) (d : Device) :
  deviceSound buf lang d -> deviceSound buf lang (capture b lang d).
Proof.
  intros [Hq Hst]. unfold capture.
  destruct (state d) eqn:Hs; [ split; [ exact Hq | now rewrite Hs ] | ].
  destruct Hst as [Hcap Hend].
  split; cbn [queue state captured]; [ exact Hq | ].
  split; [ | exact Hend ].
  apply Forall_app. split; [ exact Hcap | ]. now repeat constructor.
Qed.

Lemma exec_app (sys : System) (c : MCmd) : app (exec sys c) = app sys.
Proof. now destruct c. Qed.

Lemma exec_all_app (cmds : list MCmd) : forall sys,
  app (fold_left exec cmds sys) = app sys.
Proof.
  induction cmds as [ | c cmds IH ]; intros sys; [ reflexivity | ].
  simpl. now rewrite IH, exec_app.
Qed.

Lemma exec_sound (sys : System) (c : MCmd) :
  systemSound sys ->
  (c = RecorderStart -> recorderRef (app sys) = true) ->
  systemSound (exec sys c).
Proof.
  intros [Hd Hr] Hguard. unfold systemSound.
  destruct c; cbn [exec app device]; try (split; assumption).
  - split; [ now apply start_sound | ].
    intros Hf. rewrite Hguard in Hf; [ discriminate | reflexivity ].
  - apply stop_sound in Hd as [Hd Hs]. split; [ apply Hd | now intros _ ].
  - split; [ now apply requestData_sound | ].
    intros Hf. specialize (Hr Hf). unfold requestData. now rewrite Hr.
Qed.

Lemma exec_all_sound (cmds : list MCmd) : forall sys,
  systemSound sys ->
  (In RecorderStart cmds -> recorderRef (app sys) = true) ->
  systemSound (fold_left exec cmds sys).
Proof.
  induction cmds as [ | c cmds IH ]; intros sys Hs Hguard; [ exact Hs | ].
  simpl. apply IH.
  - apply exec_sound; [ exact Hs | ].
    intros ->. apply Hguard. now left.
  - rewrite exec_app. intros Hin. apply Hguard. now right.
Qed.

(** An event that leaves the buffer and the language alone. *)
Lemma deliver_sound (e : @Event Marked) (sys : System) :
  systemSound sys ->
  chunks (fst (step (app sys) e)) = chunks (app sys) ->
  language (fst (step (app sys) e)) = language (app sys) ->
  (recorderRef (fst (step (app sys) e)) = false ->
   recorderRef (app sys) = false) ->
  systemSound (fst (deliver e sys)).
Proof.
  intros [Hd Hr] Hc Hl Hrr. unfold deliver.
  pose proof (step_start_guarded (app sys) e) as Hg.
  destruct (step (app sys) e) as [a cmds]. cbn [fst snd] in *.
  apply exec_all_sound.
  - split; cbn [app device]; [ now rewrite Hc, Hl | ].
    intros Hf. auto.
  - cbn [app]. intros Hin. specialize (Hg Hin).
    destruct (recorderRef a) eqn:Ha; [ reflexivity | ].
    rewrite Hrr in Hg; [ discriminate | reflexivity ].
Qed.

Lemma relabel_sound (buf : MBlob) (lang lang' : string) (d : Device) :
  deviceSound buf lang d -> state d = Inactive ->
  deviceSound buf lang' d.
Proof.
  intros [Hq Hst] Hs. split; [ exact Hq | ].
  rewrite Hs in *. exact Hst.
Qed.

(** The oldest callback leaves the queue and the component handles it. *)
Lemma dispatch_sound (sys : System) :
  systemSound sys -> systemSound (fst (act sys Dispatch)).
Proof.
  intros Hs. cbn [act].
  destruct (queue (device sys)) as [ | cb q ] eqn:Hq; [ exact Hs | ].
  destruct Hs as [[Hqs Hst] Hr]. rewrite Hq in Hqs, Hst.
  cbn [queueSound] in Hqs. destruct Hqs as [Hone Hqs].
  unfold afterQueue in Hst. cbn [fold_left] in Hst.
  fold (afterQueue (afterCallback (concat (chunks (app sys))) cb) q) in Hst.
  destruct cb as [ | blob | ]; cbn [eventOf]; unfold deliver;
    cbn [step app device timers reads afterCallback] in *.
  - cbn [fold_left fst]. split; cbn [app device]; [ | exact Hr ].
    split; [ exact Hqs | exact Hst ].
  - unfold ondataavailable.
    destruct (0 <? size blob)%nat eqn:Hsz; cbn [fold_left fst exec].
    + split; cbn [app device]; [ | exact Hr ].
      cbn [chunks setChunks language].
      rewrite concat_app. cbn [concat]. rewrite app_nil_r.
      split; [ exact Hqs | exact Hst ].
    + apply Nat.ltb_ge in Hsz. unfold size in Hsz.
      assert (Hb : blob = []) by (destruct blob; [ easy | simpl in Hsz; lia ]).
      subst blob. rewrite app_nil_r in Hqs, Hst.
      split; cbn [app device]; [ | exact Hr ].
      split; [ exact Hqs | exact Hst ].
  - cbn [fold_left fst]. split; cbn [app device]; [ | exact Hr ].
    split; [ exact Hqs | exact Hst ].
Qed.

Lemma act_sound (sys : System) (a : Action) :
  systemSound sys -> systemSound (fst (act sys a)).
Proof.
  intros Hs.
  destruct a as [ b | | | | | m | | e | | | ].
  - destruct Hs as [Hd Hr]. cbn [act fst]. split; cbn [app device].
    + now apply capture_sound.
    + intros Hf. specialize (Hr Hf). unfold capture. now rewrite Hr.
  - now apply dispatch_sound.
  - cbn [act]. destruct (timers sys) as [ | n ]; [ exact Hs | ].
    apply deliver_sound; cbn [app]; auto.
  - cbn [act]. destruct (reads sys) as [ | [blob lang] r ]; [ exact Hs | ].
    apply deliver_sound; cbn [app]; auto.
  - cbn [act]. apply deliver_sound; auto.
    rewrite step_recorderRef. discriminate.
  - cbn [act]. apply deliver_sound.
    + exact Hs.
    + now rewrite step_chunks.
    + now rewrite step_language.
    + now rewrite step_recorderRef.
  - cbn [act]. apply deliver_sound.
    + exact Hs.
    + now rewrite step_chunks.
    + now rewrite step_language.
    + now rewrite step_recorderRef.
  - destruct Hs as [Hd Hr]. cbn [act]. unfold deliver. cbn [step].
    destruct (isReady (app sys)); [ | now split ].
    unfold onSetLanguage, recorderCall.
    destruct (recorderRef (app sys)) eqn:Href;
      cbn [app fold_left fst exec device].
    + split; cbn [app device]; [ | cbn; congruence ].
      apply start_sound. apply stop_sound in Hd as [Hd _]. apply Hd.
    + split; cbn [app device]; [ | intros _; now apply Hr ].
      apply (relabel_sound _ _ _ _ Hd). now apply Hr.
  - cbn [act]. apply deliver_sound.
    + exact Hs.
    + now rewrite step_chunks.
    + now rewrite step_language.
    + now rewrite step_recorderRef.
  - cbn [act]. apply deliver_sound; auto.
  - destruct Hs as [Hd Hr]. cbn [act]. unfold deliver. cbn [step].
    unfold recorderCall.
    destruct (recorderRef (app sys)) eqn:Href;
      cbn [app fold_left fst exec device].
    + apply stop_sound in Hd as [Hd Hst].
      split; cbn [app device]; [ apply Hd | now intros _ ].
    + split; cbn [app device]; [ exact Hd | intros _; now apply Hr ].
Qed.

Lemma initial_sound : systemSound (initial).
Proof. repeat split. Qed.

Lemma runSystem_cons (sys : System) (a : Action) (tr : list (Action)) :
  runSystem sys (a :: tr) =
  (fst (runSystem (fst (act sys a)) tr),
   snd (act sys a) ++ snd (runSystem (fst (act sys a)) tr)).
Proof.
  simpl. destruct (act sys a) as [s1 c1]. simpl.
  now destruct (runSystem s1 tr).
Qed.

Lemma submitted_app (c1 c2 : list MCmd) :
  submitted (c1 ++ c2) = submitted c1 ++ submitted c2.
Proof.
  induction c1 as [ | c c1 IH ]; [ reflexivity | ].
  destruct c; simpl; now rewrite IH.
Qed.

(** Only the processing effect hands a blob to the file reader, and the
    blob is the buffer. *)
Lemma step_submitted (s : MState) (e : @Event Marked) (blob : MBlob) :
  In blob (submitted (snd (step s e))) -> blob = concat (chunks s).
Proof.
  destruct e as [ | | data | | | ab lang | m | | e | | | ];
    cbn [step snd]; try (now intros []).
  - unfold ondataavailable. now destruct (0 <? size data)%nat.
  - unfold ontimeout. now destruct (recorderRef s).
  - unfold onloadend. now destruct (decodeAudioData ab).
  - destruct m; simpl; unfold recorderCall; now destruct (recorderRef s).
  - now destruct (isNull s).
  - destruct (isReady s); [ | now intros [] ].
    simpl. unfold recorderCall. now destruct (recorderRef s).
  - destruct (isReady s); [ | now intros [] ].
    simpl. unfold onReset, recorderCall. now destruct (recorderRef s).
  - rewrite processing_reads.
    destruct (recorderRef s && recording s && negb (isProcessing s) && isReady s);
      [ | now intros [] ].
    destruct (0 <? length (chunks s))%nat; simpl; [ | now intros [] ].
    intros [<- | []]. reflexivity.
  - unfold recorderCall. now destruct (recorderRef s).
Qed.

Lemma deliver_submitted (e : @Event Marked) (sys : System) (blob : MBlob) :
  In blob (submitted (snd (deliver e sys))) ->
  blob = concat (chunks (app sys)).
Proof.
  unfold deliver. pose proof (step_submitted (app sys) e blob) as Hs.
  destruct (step (app sys) e) as [a cmds]. exact Hs.
Qed.

Lemma act_submitted (sys : System) (a : Action) (blob : MBlob) :
  systemSound sys ->
  In blob (submitted (snd (act sys a))) -> oneSetting blob = true.
Proof.
  intros [[Hq _] _] Hin.
  apply queueSound_now in Hq.
  assert (Hb : blob = concat (chunks (app sys))); [ | now subst ].
  destruct a; cbn [act] in Hin;
    try (now apply deliver_submitted in Hin).
  - destruct Hin.
  - destruct (queue (device sys)); [ destruct Hin | ].
    now apply deliver_submitted in Hin.
  - destruct (timers sys); [ destruct Hin | ].
    now apply deliver_submitted in Hin.
  - destruct (reads sys) as [ | [b l] r ]; [ destruct Hin | ].
    now apply deliver_submitted in Hin.
Qed.

Lemma runSystem_sound (tr : list (Action)) : forall sys,
  systemSound sys ->
  systemSound (fst (runSystem sys tr)) /\
  Forall (fun blob => oneSetting blob = true)
         (submitted (snd (runSystem sys tr))).
Proof.
  induction tr as [ | a tr IH ]; intros sys Hs.
  - split; [ exact Hs | constructor ].
  - rewrite runSystem_cons. cbn [fst snd].
    destruct (IH _ (act_sound sys a Hs)) as [IH1 IH2].
    split; [ exact IH1 | ].
    rewrite submitted_app. apply Forall_app. split; [ | exact IH2 ].
    apply Forall_forall. intros blob Hin.
    now apply (act_submitted sys a).
Qed.

(** C8. Changing the input language stops and then restarts the capture
    device: the handler calls [stop()], records the new language and
    calls [start()]; the recorder is then recording afresh with its start
    callback queued last, and the recorder-start handler empties the
    chunk buffer. As a result, in every run of the component against its
    recorder, every blob handed to the decoder for transcription is made
    of bytes captured under one single language setting. *)
Theorem language_change_restarts_capture (s : @State P) (e : string) :
  recorderRef s = true ->
  isReady s = true ->
  step s (SetLanguage e) = (setLanguage e s, [RecorderStop; RecorderStart]) /\
  chunks (onstart (fst (step s (SetLanguage e)))) = [] /\
  (forall sys : System,
     recorderRef (app sys) = true -> isReady (app sys) = true ->
     let sys' := fst (act sys (ChooseLanguage e)) in
     language (app sys') = e /\
     state (device sys') = Recording /\
     captured (device sys') = [] /\
     exists q, queue (device sys') = q ++ [CbStart]) /\
  (forall (tr : list Action) (blob : MBlob),
     In blob (submitted (snd (runSystem initial tr))) ->
     oneSetting blob = true).
Proof.
  intros Href Hready.
  split.
  { cbn [step]. rewrite Hready. unfold onSetLanguage, recorderCall.
    now rewrite Href. }
  split; [ reflexivity | ].
  split.
  { intros sys Hr Hrd sys'. subst sys'.
    cbn [act]. unfold deliver. cbn [step]. rewrite Hrd.
    unfold onSetLanguage, recorderCall. rewrite Hr.
    cbn [app List.app fold_left fst exec device language setLanguage].
    unfold stop, start.
    destruct (state (device sys)) eqn:Hst; rewrite ?Hst;
      cbn [state captured queue]; (split; [ reflexivity | ]);
      (split; [ reflexivity | ]); (split; [ reflexivity | ]).
    - now exists (queue (device sys)).
    - eexists. reflexivity. }
  intros tr blob Hin.
  destruct (runSystem_sound tr initial initial_sound) as [_ Hall].
  rewrite Forall_forall in Hall. now apply Hall.
Qed.

End CaptureFacts.

(* ================================================================== *)
(** * The transcribe gate and the reads in progress                    *)
(* ================================================================== *)

Section CaptureGate.

Context {P : Broadcaster.Platform}.
Import Broadcaster Capture Observed.

Local Abbreviation GCmd := (@Cmd Marked).
Local Abbreviation GEvent := (@Event Marked).

Lemma submitted_length (cmds : list GCmd) :
  length (submitted cmds) = length (readsOf cmds).
Proof.
  induction cmds as [ | c cmds IH ]; [ reflexivity | ].
  destruct c; cbn; now rewrite ?IH.
Qed.

Lemma exec_all_reads (cmds : list GCmd) : forall sys,
  length (reads (fold_left exec cmds sys)) =
  length (reads sys) + length (submitted cmds).
Proof.
  induction cmds as [ | c cmds IH ]; intros sys; [ cbn; lia | ].
  cbn [fold_left]. rewrite IH.
  destruct c; cbn [exec reads submitted length]; try lia.
  rewrite length_app. cbn. lia.
Qed.

(** An event handed to the component while [isProcessing] is set, other
    than a 'complete' message. *)
Lemma deliver_busy (e : GEvent) (sys : System) :
  isProcessing (app sys) = true ->
  releases e = false ->
  isProcessing (app (fst (deliver e sys))) = true /\
  submitted (snd (deliver e sys)) = [] /\
  length (reads (fst (deliver e sys))) = length (reads sys) /\
  length (windowsOf (snd (deliver e sys))) = Nat.b2n (decodable e).
Proof.
  intros Hp He. unfold deliver.
  pose proof (broadcaster_step_gate (app sys) e) as Hgate.
  pose proof (step_reads (app sys) e) as Hreads.
  pose proof (step_windows_count (app sys) e) as Hwin.
  destruct (step (app sys) e) as [a cmds]. cbn [fst snd] in *.
  rewrite He, Hp in Hgate. cbn in Hgate.
  assert (Hnone : submitted cmds = []).
  { apply length_zero_iff_nil. rewrite submitted_length, Hreads.
    destruct e; try reflexivity. now rewrite processing_busy. }
  rewrite exec_all_app, exec_all_reads, Hnone. cbn [app reads length].
  repeat split; auto; lia.
Qed.

Lemma act_busy (sys : System) (a : Action) :
  isProcessing (app sys) = true ->
  isCompletion a = false ->
  isProcessing (app (fst (act sys a))) = true /\
  submitted (snd (act sys a)) = [] /\
  length (windowsOf (snd (act sys a))) + length (reads (fst (act sys a)))
    <= length (reads sys).
Proof.
  intros Hp Ha.
  assert (Hquiet : forall (e : GEvent) (sys' : System),
            app sys' = app sys -> length (reads sys') <= length (reads sys) ->
            releases e = false -> decodable e = false ->
            isProcessing (app (fst (deliver e sys'))) = true /\
            submitted (snd (deliver e sys')) = [] /\
            length (windowsOf (snd (deliver e sys')))
              + length (reads (fst (deliver e sys'))) <= length (reads sys)).
  { intros e sys' Happ Hlen He Hd.
    destruct (deliver_busy e sys') as (H1 & H2 & H3 & H4);
      [ now rewrite Happ | exact He | ].
    rewrite H3, H4, Hd. cbn. auto. }
  destruct a as [ b | | | | | m | | e | | | ]; cbn [act].
  - cbn [fst snd app reads]. repeat split; auto.
  - destruct (queue (device sys)) as [ | cb q ]; [ repeat split; auto | ].
    apply Hquiet; auto; now destruct cb.
  - destruct (timers sys) as [ | n ]; [ repeat split; auto | ].
    apply Hquiet; auto.
  - destruct (reads sys) as [ | [blob lang] r ] eqn:Hr;
      [ cbn [fst snd]; rewrite ?Hr; repeat split; auto | ].
    destruct (deliver_busy (LoadEnd blob lang)
                (mkSystem (app sys) (device sys) (timers sys) r))
      as (H1 & H2 & H3 & H4); [ exact Hp | reflexivity | ].
    rewrite H3, H4. cbn [reads length].
    repeat split; auto.
    destruct (decodable (LoadEnd blob lang)); cbn; lia.
  - apply Hquiet; auto.
  - apply Hquiet; auto.
  - apply Hquiet; auto.
  - apply Hquiet; auto.
  - apply Hquiet; auto.
  - apply Hquiet; auto.
  - apply Hquiet; auto.
Qed.

(** While [isProcessing] is set and no 'complete' arrives, no file read of
    the buffer is started; the windows that still reach the worker are
    those of reads that were in progress already, one at most for each. *)
Lemma system_busy_until_complete (tr : list Action) : forall sys,
  isProcessing (app sys) = true ->
  forallb (fun a => negb (isCompletion a)) tr = true ->
  isProcessing (app (fst (runSystem sys tr))) = true /\
  submitted (snd (runSystem sys tr)) = [] /\
  length (windowsOf (snd (runSystem sys tr)))
    + length (reads (fst (runSystem sys tr))) <= length (reads sys).
Proof.
  induction tr as [ | a tr IH ]; intros sys Hp Hno.
  - cbn. repeat split; auto.
  - cbn [forallb] in Hno. apply andb_true_iff in Hno as [Ha Hno].
    apply negb_true_iff in Ha.
    rewrite runSystem_cons. cbn [fst snd].
    destruct (act_busy sys a Hp Ha) as (A1 & A2 & A3).
    destruct (IH _ A1 Hno) as (I1 & I2 & I3).
    rewrite submitted_app, windowsOf_app, length_app, A2, I2.
    repeat split; auto. lia.
Qed.

End CaptureGate.

(* ================================================================== *)
(** * The two single-flight gates                                      *)
(* ================================================================== *)

Section Gates.

Context `{E : Receiver.Env} `{P : Broadcaster.Platform}.

(** C2, amended. Translate gate: after every sequence of events, a call
    of [translate] is denied exactly when an earlier call was granted and
    no 'complete' message has arrived since; a denied call does nothing
    and a request is posted exactly by a granted call. Transcribe gate:
    the processing step is denied exactly when a 'start' message of the
    worker has arrived and no 'complete' message since; a denied step
    does nothing, and a file read of the buffer is started exactly by a
    granted step, which does not close the gate by itself. The request to
    the transcription worker is posted when such a read ends with
    decodable data, without looking at the gate. Either gate is opened by
    each 'complete' message and by no other event. *)
Theorem single_flight_gates :
  (forall tr,
     Receiver.denied (fst (Receiver.run Receiver.init tr)) =
     Receiver.outstanding Receiver.init tr false) /\
  (forall s e,
     Receiver.disabled (fst (Receiver.step s e)) =
     negb (Receiver.releases e) &&
     (Receiver.disabled s || Receiver.granted s e)) /\
  (forall tr,
     Broadcaster.denied (fst (Broadcaster.run Broadcaster.init tr)) =
     Broadcaster.generating tr false) /\
  (forall s e,
     Broadcaster.isProcessing (fst (Broadcaster.step s e)) =
     negb (Broadcaster.releases e) &&
     (Broadcaster.isProcessing s || Broadcaster.starts e)) /\
  (forall s e,
     length (Receiver.posts (snd (Receiver.step s e))) =
     if Receiver.granted s e then 1 else 0) /\
  (forall s e,
     length (Broadcaster.readsOf (snd (Broadcaster.step s e))) =
     if Broadcaster.granted s e then 1 else 0) /\
  (forall s,
     Receiver.denied s = true ->
     Receiver.translate s = (s, []) /\
     forall e, Receiver.granted s e = false) /\
  (forall s,
     Broadcaster.denied s = true ->
     Broadcaster.processing s = [] /\
     forall e, Broadcaster.granted s e = false) /\
  (forall s e,
     length (Observed.windowsOf (snd (Broadcaster.step s e))) =
     Nat.b2n (Observed.decodable e)).
Proof.
  split; [ intros tr; apply gate_tracks_outstanding | ].
  split; [ apply receiver_step_gate | ].
  split; [ intros tr; apply gate_tracks_generating | ].
  split; [ apply broadcaster_step_gate | ].
  split; [ apply receiver_step_posts | ].
  split; [ apply broadcaster_step_reads | ].
  split.
  { intros s Hd. split; [ now apply translate_gate_held | ].
    intros e. unfold Receiver.denied in Hd. unfold Receiver.granted.
    rewrite Hd. now destruct e. }
  split.
  { intros s Hd. split; [ now apply processing_busy | ].
    intros e. destruct (Broadcaster.granted s e) eqn:Hg; [ | reflexivity ].
    apply granted_not_busy in Hg. unfold Broadcaster.denied in Hd.
    congruence. }
  apply step_windows_count.
Qed.

(** C5, amended. A worker message whose status has no case in the
    handler, an error report among them, changes nothing: a gate that is
    held stays held. Each gate is released by a 'complete' message; as
    long as none arrives, the gate stays held whatever else happens. Until
    then no translation request is posted, and no processing step is
    granted: no file read of the buffer is started, and the only windows
    that still reach the transcription worker are those of file reads
    that were in progress already, one at most for each. *)
Theorem gate_released_by_complete_only :
  (forall status s,
     Receiver.onMessageReceived (Receiver.Unhandled status) s = s) /\
  (forall status s,
     Broadcaster.onMessageReceived (Broadcaster.Unhandled status) s = (s, [])) /\
  (forall result s,
     Receiver.disabled
       (Receiver.onMessageReceived (Receiver.Complete result) s) = false) /\
  (forall out s,
     Broadcaster.isProcessing
       (fst (Broadcaster.onMessageReceived (Broadcaster.Complete out) s)) = false) /\
  (forall s tr,
     Receiver.disabled s = true ->
     forallb (fun e => negb (Receiver.releases e)) tr = true ->
     Receiver.disabled (fst (Receiver.run s tr)) = true /\
     Receiver.posts (snd (Receiver.run s tr)) = []) /\
  (forall s tr,
     Broadcaster.isProcessing s = true ->
     forallb (fun e => negb (Broadcaster.releases e)) tr = true ->
     Broadcaster.isProcessing (fst (Broadcaster.run s tr)) = true /\
     Broadcaster.readsOf (snd (Broadcaster.run s tr)) = []) /\
  (forall (sys : Capture.System) (tr : list Capture.Action),
     Broadcaster.isProcessing (Capture.app sys) = true ->
     forallb (fun a => negb (Observed.isCompletion a)) tr = true ->
     Broadcaster.isProcessing
       (Capture.app (fst (Capture.runSystem sys tr))) = true /\
     Capture.submitted (snd (Capture.runSystem sys tr)) = [] /\
     length (Observed.windowsOf (snd (Capture.runSystem sys tr)))
       + length (Capture.reads (fst (Capture.runSystem sys tr)))
       <= length (Capture.reads sys)).
Proof.
  split; [ reflexivity | ].
  split; [ reflexivity | ].
  split; [ reflexivity | ].
  split; [ reflexivity | ].
  split; [ intros s tr Hd Hno; now apply held_until_complete | ].
  split; [ intros s tr Hp Hno; now apply busy_until_complete | ].
  intros sys tr Hp Hno. now apply system_busy_until_complete.
Qed.

End Gates.

(* ================================================================== *)
(** * The components at work                                           *)
(* ================================================================== *)

Section Runs.

#[local] Existing Instance Concrete.env.
#[local] Existing Instance Concrete.platform.

(** The broadcaster once the model is loaded and recording has started. *)
Lemma broadcaster_recording :
  fst (Broadcaster.run Broadcaster.init
         [Broadcaster.StreamGranted; Broadcaster.ClickStart;
          Broadcaster.WorkerMessage Broadcaster.Ready; Broadcaster.OnStart]) =
  Broadcaster.mkState true Broadcaster.StatusReady "" []
    (Broadcaster.TextString "") None "en" "en" true false [].
Proof. reflexivity. Qed.

(** C1 as stated fails: the processing step reads the chunks and leaves
    them in the buffer, and the next step reads them again. *)
Lemma buffer_not_emptied_by_processing :
  let s := Broadcaster.mkState true Broadcaster.StatusReady "" []
             (Broadcaster.TextString "") None "en" "en" true false [] in
  let s1 := fst (Broadcaster.run s [Broadcaster.OnDataAvailable [tt]]) in
  let s2 := fst (Broadcaster.step s1 Broadcaster.Effect) in
  let s3 := fst (Broadcaster.run s2
                   [Broadcaster.WorkerMessage Broadcaster.Start;
                    Broadcaster.OnDataAvailable [tt; tt];
                    Broadcaster.WorkerMessage (Broadcaster.Complete ["hi"])]) in
  Broadcaster.drain s1 = Some [tt] /\
  Broadcaster.chunks s2 = [[tt]] /\
  Broadcaster.chunks s2 <> [] /\
  Broadcaster.drain s3 = Some [tt; tt; tt] /\
  Broadcaster.drain s3 <> Some [tt; tt].
Proof. cbv. repeat split; discriminate. Qed.

(** C2 as stated fails for transcription: a window has been handed to
    the worker and no result has arrived, yet the next processing step is
    granted too, and two requests are in flight. *)
Lemma transcribe_gate_open_after_grant :
  let tr := [Broadcaster.StreamGranted; Broadcaster.ClickStart;
             Broadcaster.WorkerMessage Broadcaster.Ready;
             Broadcaster.OnStart; Broadcaster.OnDataAvailable [tt];
             Broadcaster.Effect; Broadcaster.SetLanguage "fr"] in
  let s := fst (Broadcaster.run Broadcaster.init tr) in
  ~ (Broadcaster.denied s = true <->
     Broadcaster.outstanding Broadcaster.init tr false = true) /\
  Broadcaster.outstanding Broadcaster.init tr false = true /\
  Broadcaster.denied s = false /\
  Broadcaster.granted s Broadcaster.Effect = true /\
  Broadcaster.readsOf
    (snd (Broadcaster.run Broadcaster.init (tr ++ [Broadcaster.Effect]))) =
  [Broadcaster.ReadAsArrayBuffer [tt] "en";
   Broadcaster.ReadAsArrayBuffer [tt] "fr"].
Proof.
  cbv. repeat split; try reflexivity.
  intros [_ Hback]. specialize (Hback eq_refl). discriminate.
Qed.

(** C4 as stated fails: the target language changes while the first
    request is in flight; when that request completes nothing is posted,
    and no request towards the new target exists. *)
Lemma no_retranslation_after_completion :
  let tr := [Receiver.Mount; Receiver.TargetChange "fra_Latn";
             Receiver.WorkerMessage (Receiver.Complete "Hello.")] in
  let s := fst (Receiver.run Receiver.init tr) in
  Receiver.posts (snd (Receiver.run Receiver.init tr)) =
    [Receiver.PostMessage "Hallo." (Some "deu_Latn") "eng_Latn"] /\
  (forall text src,
     ~ In (Receiver.PostMessage text src "fra_Latn")
          (snd (Receiver.run Receiver.init tr))) /\
  Receiver.targetLanguageRef s = "fra_Latn" /\
  Receiver.output s = "Hello." /\
  Receiver.disabled s = false.
Proof.
  cbv. repeat split; try reflexivity.
  intros text src Hin.
  repeat (destruct Hin as [Hin | Hin]; [ discriminate | ]).
  exact Hin.
Qed.

(** C5 as stated fails: after an error report the gate is still held and
    the next request of that kind is dropped. *)
Lemma error_leaves_gate_held :
  let s := fst (Receiver.run Receiver.init
                  [Receiver.Mount;
                   Receiver.WorkerMessage (Receiver.Unhandled "error")]) in
  let b := fst (Broadcaster.run Broadcaster.init
                  [Broadcaster.StreamGranted; Broadcaster.ClickStart;
                   Broadcaster.WorkerMessage Broadcaster.Ready;
                   Broadcaster.OnStart; Broadcaster.OnDataAvailable [tt];
                   Broadcaster.Effect;
                   Broadcaster.WorkerMessage Broadcaster.Start;
                   Broadcaster.WorkerMessage (Broadcaster.Unhandled "error")]) in
  Receiver.disabled s = true /\
  Receiver.step s (Receiver.Broadcast "Guten Tag." "de") =
    (Receiver.setInput "Guten Tag." s, []) /\
  Broadcaster.isProcessing b = true /\
  Broadcaster.chunks b = [[tt]] /\
  Broadcaster.step b Broadcaster.Effect = (b, []).
Proof. cbv. repeat split. Qed.

(** C6 as stated fails: with a translation in flight, [translate] with
    equal source and target language does not set the output. *)
Lemma same_language_dropped_in_flight :
  let s := Receiver.setTargetLanguage "deu_Latn"
             (fst (Receiver.run Receiver.init [Receiver.Mount])) in
  Receiver.sourceLanguageRef s = Some (Receiver.targetLanguageRef s) /\
  Receiver.inputRef s = "Hallo." /\
  Receiver.output (fst (Receiver.translate s)) = "" /\
  Receiver.output (fst (Receiver.translate s)) <> Receiver.inputRef s.
Proof. cbv. repeat split. discriminate. Qed.

(** [translate] while the initial request is in flight. *)
Lemma translate_dropped_while_in_flight_witness :
  let s := fst (Receiver.run Receiver.init [Receiver.Mount]) in
  Receiver.disabled s = true /\ Receiver.translate s = (s, []).
Proof.
  intros s. split; [ reflexivity | ].
  apply (translate_dropped_while_in_flight s). reflexivity.
Defined.

(** German to German with the gate free. *)
Lemma translate_same_language_witness :
  let s := Receiver.setTargetLanguage "deu_Latn" Receiver.init in
  Receiver.translate s = (Receiver.setOutput "Hallo." s, []).
Proof.
  intros s.
  apply (translate_same_language s "Hallo." "deu_Latn"); reflexivity.
Defined.

(** The target changes to French while German to English is in flight. *)
Lemma target_change_in_flight_witness :
  let s := fst (Receiver.run Receiver.init [Receiver.Mount]) in
  let s1 := fst (Receiver.step s (Receiver.TargetChange "fra_Latn")) in
  let s2 :=
    fst (Receiver.step s1 (Receiver.WorkerMessage (Receiver.Complete "Hello."))) in
  snd (Receiver.step s (Receiver.TargetChange "fra_Latn")) = [] /\
  snd (Receiver.step s1 (Receiver.WorkerMessage (Receiver.Complete "Hello."))) = [] /\
  Receiver.output s2 = "Hello.".
Proof.
  intros s s1 s2.
  destruct (target_change_in_flight s "fra_Latn" "Hello." eq_refl)
    as (_ & _ & H1 & H2 & H3 & _).
  exact (conj H1 (conj H2 H3)).
Defined.

(** Scenario B of the specification, with one sample more than 30 s. *)
Lemma window_is_trailing_MAX_SAMPLES_witness :
  let audio := @Broadcaster.getChannelData Concrete.platform Concrete.longAudio 0 in
  exists w dropped,
    @Broadcaster.onloadend Concrete.platform Concrete.longAudio "en" =
      [Broadcaster.PostGenerate w "en"] /\
    Z.of_nat (length w) = Broadcaster.MAX_SAMPLES /\
    audio = dropped ++ w /\
    w = skipn (length audio - Z.to_nat Broadcaster.MAX_SAMPLES) audio.
Proof.
  destruct (@window_is_trailing_MAX_SAMPLES Concrete.platform
              Concrete.longAudio "en" Concrete.longAudio eq_refl)
    as [Hlong _].
  apply Hlong. vm_compute. reflexivity.
Defined.

(** Three deliveries, the second one empty, after a recorder start. *)
Lemma buffer_read_in_order_and_kept_witness :
  let s := fst (Broadcaster.run Broadcaster.init
                  [Broadcaster.StreamGranted; Broadcaster.ClickStart;
                   Broadcaster.WorkerMessage Broadcaster.Ready]) in
  let cs := [[tt]; []; [tt; tt]] in
  let s1 := fst (Broadcaster.run (Broadcaster.onstart s)
                   (map Broadcaster.OnDataAvailable cs)) in
  Broadcaster.processing s1 =
    [Broadcaster.ReadAsArrayBuffer (concat cs) (Broadcaster.language s)].
Proof.
  intros s cs s1.
  destruct (buffer_read_in_order_and_kept s cs)
    as (_ & _ & _ & _ & Hread & _).
  apply Hread; try reflexivity. discriminate.
Defined.

(** An empty chunk arrives while recording. *)
Lemma empty_chunk_retry_witness :
  let s := Broadcaster.mkState true Broadcaster.StatusReady "" []
             (Broadcaster.TextString "") None "en" "en" true false [] in
  Broadcaster.ondataavailable [] s = (s, [Broadcaster.SetTimeout 25]) /\
  Broadcaster.step s Broadcaster.TimerFired = (s, [Broadcaster.RequestData]).
Proof.
  intros s.
  destruct (empty_chunk_retry s [] eq_refl) as (H1 & _ & H2 & _).
  split; [ exact H1 | ]. apply H2. reflexivity.
Defined.

(** A one-byte chunk is appended to the empty buffer. *)
Lemma chunks_always_positive_witness :
  Broadcaster.allPositive
    (Broadcaster.chunks
       (fst (Broadcaster.step Broadcaster.init
               (Broadcaster.OnDataAvailable [tt])))).
Proof.
  destruct chunks_always_positive as (Hinit & _ & _ & Hstep & _).
  apply Hstep. exact Hinit.
Defined.

(** The language is switched to French while recording. *)
Lemma language_change_restarts_capture_witness :
  let s := Broadcaster.mkState true Broadcaster.StatusReady "" []
             (Broadcaster.TextString "") None "en" "en" true false [[tt]] in
  Broadcaster.step s (Broadcaster.SetLanguage "fr") =
    (Broadcaster.setLanguage "fr" s,
     [Broadcaster.RecorderStop; Broadcaster.RecorderStart]) /\
  Broadcaster.chunks
    (Broadcaster.onstart
       (fst (Broadcaster.step s (Broadcaster.SetLanguage "fr")))) = [].
Proof.
  intros s.
  destruct (language_change_restarts_capture s "fr" eq_refl eq_refl)
    as (H1 & H2 & _).
  exact (conj H1 H2).
Defined.

(** An error report and a new transcript while a translation is in
    flight; and, in the broadcaster, an error report, an effect run and
    the end of a read that was in progress while the worker is busy. *)
Lemma gate_released_by_complete_only_witness :
  let s := fst (Receiver.run Receiver.init [Receiver.Mount]) in
  let tr := [Receiver.WorkerMessage (Receiver.Unhandled "error");
             Receiver.Broadcast "Guten Tag." "de"] in
  let sys := fst (Capture.runSystem Capture.initial
                    [Capture.Granted; Capture.PressStart;
                     Capture.Worker Broadcaster.Ready; Capture.Dispatch;
                     Capture.Sound tt; Capture.Render; Capture.Dispatch;
                     Capture.Render; Capture.ChooseLanguage "fr";
                     Capture.Render; Capture.ReadCompleted;
                     Capture.Worker Broadcaster.Start]) in
  let acts := [Capture.Worker (Broadcaster.Unhandled "error");
               Capture.Render; Capture.ReadCompleted; Capture.Render] in
  (Receiver.disabled (fst (Receiver.run s tr)) = true /\
   Receiver.posts (snd (Receiver.run s tr)) = []) /\
  (Broadcaster.isProcessing
     (Capture.app (fst (Capture.runSystem sys acts))) = true /\
   Capture.submitted (snd (Capture.runSystem sys acts)) = [] /\
   length (Observed.windowsOf (snd (Capture.runSystem sys acts)))
     + length (Capture.reads (fst (Capture.runSystem sys acts)))
     <= length (Capture.reads sys)).
Proof.
  intros s tr sys acts.
  destruct (@gate_released_by_complete_only Concrete.env Concrete.platform)
    as (_ & _ & _ & _ & Hheld & _ & Hsystem).
  split.
  - apply Hheld; reflexivity.
  - apply Hsystem; reflexivity.
Defined.

(** Two language segments run against the recorder: each blob read is of
    one setting, the first English, the second French. *)
Lemma two_segments_two_windows :
  let tr := [Capture.Granted; Capture.PressStart;
             Capture.Worker Broadcaster.Ready; Capture.Dispatch;
             Capture.Sound tt; Capture.Render; Capture.Dispatch;
             Capture.Render;
             Capture.ChooseLanguage "fr"; Capture.Sound tt; Capture.Sound tt;
             Capture.Dispatch; Capture.Dispatch; Capture.Dispatch;
             Capture.Render; Capture.Dispatch; Capture.Render] in
  Capture.submitted (snd (Capture.runSystem Capture.initial tr)) =
    [[(tt, "en")]; [(tt, "fr"); (tt, "fr")]].
Proof. reflexivity. Qed.

(** A window was read, the worker has started on it and is busy. *)
Lemma single_flight_gates_witness :
  let b := fst (Broadcaster.run Broadcaster.init
                  [Broadcaster.StreamGranted; Broadcaster.ClickStart;
                   Broadcaster.WorkerMessage Broadcaster.Ready;
                   Broadcaster.OnStart; Broadcaster.OnDataAvailable [tt];
                   Broadcaster.Effect;
                   Broadcaster.WorkerMessage Broadcaster.Start;
                   Broadcaster.OnDataAvailable [tt; tt]]) in
  Broadcaster.chunks b = [[tt]; [tt; tt]] /\
  Broadcaster.processing b = [] /\
  Broadcaster.granted b Broadcaster.Effect = false.
Proof.
  intros b. split; [ reflexivity | ].
  destruct (@single_flight_gates Concrete.env Concrete.platform)
    as (_ & _ & _ & _ & _ & _ & _ & Hbusy & _).
  destruct (Hbusy b eq_refl) as [Hidle Hdenied].
  split; [ exact Hidle | apply Hdenied ].
Defined.

(** Two reads were started before the worker's 'start' arrived; the second
    one ends while the worker is busy, and its window is posted. *)
Lemma window_posted_while_busy :
  let sys := fst (Capture.runSystem Capture.initial
                    [Capture.Granted; Capture.PressStart;
                     Capture.Worker Broadcaster.Ready; Capture.Dispatch;
                     Capture.Sound tt; Capture.Render; Capture.Dispatch;
                     Capture.Render; Capture.ChooseLanguage "fr";
                     Capture.Render; Capture.ReadCompleted;
                     Capture.Worker Broadcaster.Start]) in
  Broadcaster.isProcessing (Capture.app sys) = true /\
  length (Capture.reads sys) = 1 /\
  Observed.windowsOf (snd (Capture.runSystem sys [Capture.ReadCompleted])) =
    [[tt]] /\
  Capture.reads (fst (Capture.runSystem sys [Capture.ReadCompleted])) = [].
Proof. repeat split. Qed.

End Runs.

(* ================================================================== *)
(** * Further properties of the receiver                              *)
(* ================================================================== *)

Section ReceiverMore.

Context `{Receiver.Env}.
Import Receiver.

(** [translate] touches the output and the gate, nothing else. *)
Lemma translate_frame (s : State) :
  let s' := fst (translate s) in
  ready s' = ready s /\ progressItems s' = progressItems s /\
  input s' = input s /\ inputRef s' = inputRef s /\
  sourceLanguage s' = sourceLanguage s /\
  sourceLanguageRef s' = sourceLanguageRef s /\
  targetLanguage s' = targetLanguage s /\
  targetLanguageRef s' = targetLanguageRef s.
Proof.
  unfold translate.
  destruct (disabled s); [ cbn; tauto | ].
  destruct (sameLanguage _ _); cbn; tauto.
Qed.

Lemma posts_balance (tr : list Event) : forall s,
  length (posts (snd (run s tr))) + Nat.b2n (disabled s) <=
  length (filter releases tr) + Nat.b2n (disabled (fst (run s tr))).
Proof.
  induction tr as [ | e tr IH ]; intros s; [ simpl; lia | ].
  rewrite receiver_run_cons. cbn [fst snd].
  unfold posts at 1. rewrite filter_app, length_app.
  fold (posts (snd (step s e))).
  fold (posts (snd (run (fst (step s e)) tr))).
  specialize (IH (fst (step s e))).
  rewrite receiver_step_gate in IH. rewrite receiver_step_posts.
  cbn [filter].
  assert (Hg : granted s e = true -> disabled s = false /\ releases e = false).
  { destruct e; unfold granted; cbn [releases];
      try (intros Hg; apply andb_true_iff in Hg as [Hg _];
           apply negb_true_iff in Hg; now split).
    discriminate. }
  destruct (granted s e) eqn:Hgr.
  - destruct (Hg eq_refl) as [Hd Hr]. rewrite Hd, Hr in *. cbn in *. lia.
  - destruct (releases e), (disabled s); cbn in *; lia.
Qed.

(** X1. In every run of the receiver, from any state, the number of
    requests posted to the translation worker is at most the number of
    'complete' messages received plus one: requests never pile up. *)
Theorem translation_requests_bounded (s : State) (tr : list Event) :
  length (posts (snd (run s tr))) <= length (filter releases tr) + 1.
Proof.
  pose proof (posts_balance tr s) as Hb.
  destruct (disabled s), (disabled (fst (run s tr))); cbn in Hb; lia.
Qed.

(** X2. A transcript whose language code has no entry in
    [languageMapping] is never short-circuited: with the gate free, a
    request with an undefined source language is posted for it, whatever
    the target language is. *)
Theorem unknown_language_is_posted (s : State) (message language : string) :
  languageMapping language = None ->
  disabled s = false ->
  snd (step s (Broadcast message language)) =
    [ConsoleLog "Translating...";
     PostMessage message None (targetLanguageRef s)] /\
  disabled (fst (step s (Broadcast message language))) = true /\
  output (fst (step s (Broadcast message language))) = output s.
Proof.
  intros Hmap Hd. cbn [step]. rewrite Hmap. unfold translate.
  cbn [disabled setSourceLanguage setInput sourceLanguageRef targetLanguageRef
       inputRef sameLanguage].
  rewrite Hd. cbn. auto.
Qed.

Lemma step_keeps_refs (s : State) (e : Event) :
  input s = inputRef s ->
  sourceLanguage s = sourceLanguageRef s ->
  targetLanguage s = targetLanguageRef s ->
  let s' := fst (step s e) in
  input s' = inputRef s' /\
  sourceLanguage s' = sourceLanguageRef s' /\
  targetLanguage s' = targetLanguageRef s'.
Proof.
  intros Hi Hs Ht.
  destruct e as [ | message lang | value | m ].
  - cbn zeta. rewrite mount_fst.
    destruct (translate_frame s) as (_ & _ & -> & -> & -> & -> & -> & ->).
    auto.
  - cbn [step]. cbn zeta.
    destruct (translate_frame
                (setSourceLanguage (languageMapping lang) (setInput message s)))
      as (_ & _ & -> & -> & -> & -> & -> & ->).
    cbn. auto.
  - cbn [step]. cbn zeta.
    destruct (translate_frame (setTargetLanguage value s))
      as (_ & _ & -> & -> & -> & -> & -> & ->).
    cbn. auto.
  - destruct m; cbn; auto.
Qed.

(** X3. The rendered values and the refs read by the callbacks never
    drift apart: after every run from the initial state, [input],
    [sourceLanguage] and [targetLanguage] equal [inputRef.current],
    [sourceLanguageRef.current] and [targetLanguageRef.current]; and every
    event keeps them equal. *)
Theorem refs_follow_state :
  (forall s e,
     input s = inputRef s ->
     sourceLanguage s = sourceLanguageRef s ->
     targetLanguage s = targetLanguageRef s ->
     input (fst (step s e)) = inputRef (fst (step s e)) /\
     sourceLanguage (fst (step s e)) = sourceLanguageRef (fst (step s e)) /\
     targetLanguage (fst (step s e)) = targetLanguageRef (fst (step s e))) /\
  (forall tr,
     input (fst (run init tr)) = inputRef (fst (run init tr)) /\
     sourceLanguage (fst (run init tr)) = sourceLanguageRef (fst (run init tr)) /\
     targetLanguage (fst (run init tr)) = targetLanguageRef (fst (run init tr))).
Proof.
  split; [ intros s e; apply step_keeps_refs | ].
  intros tr.
  assert (Hgen : forall s,
             input s = inputRef s /\ sourceLanguage s = sourceLanguageRef s /\
             targetLanguage s = targetLanguageRef s ->
             input (fst (run s tr)) = inputRef (fst (run s tr)) /\
             sourceLanguage (fst (run s tr)) = sourceLanguageRef (fst (run s tr)) /\
             targetLanguage (fst (run s tr)) = targetLanguageRef (fst (run s tr))).
  { induction tr as [ | e tr IH ]; intros s Hs; [ exact Hs | ].
    rewrite receiver_run_cons. cbn [fst]. apply IH.
    destruct Hs as (Hi & Hs & Ht). now apply step_keeps_refs. }
  apply Hgen. repeat split.
Qed.

(** X4. A transcript received on the channel is always shown, also when
    its translation is dropped: after the broadcast handler the input is
    the received message and the source language its mapped code, the
    target language is untouched; a target change is always recorded and
    leaves the input and the source language alone. *)
Theorem latest_transcript_recorded (s : State) :
  (forall message language,
     let s' := fst (step s (Broadcast message language)) in
     input s' = message /\ inputRef s' = message /\
     sourceLanguage s' = languageMapping language /\
     sourceLanguageRef s' = languageMapping language /\
     targetLanguageRef s' = targetLanguageRef s) /\
  (forall value,
     let s' := fst (step s (TargetChange value)) in
     targetLanguage s' = value /\ targetLanguageRef s' = value /\
     inputRef s' = inputRef s /\
     sourceLanguageRef s' = sourceLanguageRef s).
Proof.
  split.
  - intros message language. cbn [step]. cbn zeta.
    destruct (translate_frame
                (setSourceLanguage (languageMapping language)
                   (setInput message s)))
      as (_ & _ & -> & -> & -> & -> & _ & ->).
    cbn. auto.
  - intros value. cbn [step]. cbn zeta.
    destruct (translate_frame (setTargetLanguage value s))
      as (_ & _ & _ & -> & _ & -> & -> & ->).
    cbn. auto.
Qed.

End ReceiverMore.

(* ================================================================== *)
(** * The progress lists                                             *)
(* ================================================================== *)

Lemma filter_keeps_all {A : Type} (keep : A -> bool) (l : list A) :
  (forall x, In x l -> keep x = true) -> filter keep l = l.
Proof.
  induction l as [ | x l IH ]; intros Hall; [ reflexivity | ].
  cbn [filter]. rewrite (Hall x) by now left.
  f_equal. apply IH. intros y Hy. apply Hall. now right.
Qed.

Section ReceiverProgress.

Context `{Receiver.Env}.
Import Receiver.

(** X5. A 'progress' message of the translation worker updates in place:
    the list keeps its entries' file names and order, every entry of the
    reported file shows the reported progress, entries of other files are
    the old ones, and a report for a file that has no entry changes
    nothing. *)
Theorem receiver_progress_in_place (s : State) (f : string) (p : option number) :
  let items := progressItems s in
  let items' := progressItems (onMessageReceived (Progress f p) s) in
  map file items' = map file items /\
  (forall item, In item items' -> file item = f -> progress item = p) /\
  (forall item, In item items' -> file item <> f -> In item items) /\
  ((forall item, In item items -> file item <> f) -> items' = items).
Proof.
  cbn [onMessageReceived progressItems setProgressItems].
  induction (progressItems s) as [ | x items IH ]; cbn [map].
  - repeat split; auto; intros item [].
  - destruct IH as (IH1 & IH2 & IH3 & IH4).
    destruct (String.eqb (file x) f) eqn:Hx.
    + apply String.eqb_eq in Hx.
      split; [ cbn; now rewrite IH1 | ].
      split; [ intros item [<- | Hin] Hf; [ reflexivity | now apply IH2 ] | ].
      split.
      * intros item [<- | Hin] Hf; [ cbn in Hf; congruence | right; now apply IH3 ].
      * intros Hno. exfalso. apply (Hno x); [ now left | exact Hx ].
    + apply String.eqb_neq in Hx.
      split; [ cbn; now rewrite IH1 | ].
      split; [ intros item [<- | Hin] Hf; [ congruence | now apply IH2 ] | ].
      split.
      * intros item [<- | Hin] Hf; [ now left | right; now apply IH3 ].
      * intros Hno. f_equal. apply IH4. intros item Hin. apply Hno. now right.
Qed.

Lemma receiver_done_items (s : State) (f : string) :
  progressItems (onMessageReceived (Done f) s) =
  filter (fun item => negb (String.eqb (file item) f)) (progressItems s).
Proof. reflexivity. Qed.

Lemma receiver_done_all (fs : list string) : forall s,
  (forall item, In item (progressItems s) -> In (file item) fs) ->
  progressItems
    (fst (run s (map (fun f => WorkerMessage (Done f)) fs))) = [].
Proof.
  induction fs as [ | f fs IH ]; intros s Hall.
  - cbn. destruct (progressItems s) as [ | x r ]; [ reflexivity | ].
    destruct (Hall x (or_introl eq_refl)).
  - cbn [map]. rewrite receiver_run_cons. cbn [fst step]. apply IH.
    intros item Hin. rewrite receiver_done_items in Hin.
    apply filter_In in Hin as [Hin Hf].
    apply negb_true_iff, String.eqb_neq in Hf.
    destruct (Hall item Hin) as [Heq | Hfs]; [ congruence | exact Hfs ].
Qed.

(** X6. A 'done' message removes every entry of its file, however many
    there are, and keeps the others in order; an 'initiate' followed by the
    'done' of the same file gives back the list without that file; and once
    every listed file has reported 'done', the list is empty. *)
Theorem receiver_done_clears (s : State) :
  (forall f item,
     In item (progressItems (onMessageReceived (Done f) s)) <->
     In item (progressItems s) /\ file item <> f) /\
  (forall item,
     progressItems
       (onMessageReceived (Done (file item))
          (onMessageReceived (Initiate item) s)) =
     filter (fun x => negb (String.eqb (file x) (file item))) (progressItems s)) /\
  (forall item,
     (forall x, In x (progressItems s) -> file x <> file item) ->
     progressItems
       (onMessageReceived (Done (file item))
          (onMessageReceived (Initiate item) s)) = progressItems s) /\
  progressItems
    (fst (run s (map (fun f => WorkerMessage (Done f))
                     (map file (progressItems s))))) = [].
Proof.
  assert (Hround : forall item,
    progressItems
      (onMessageReceived (Done (file item))
         (onMessageReceived (Initiate item) s)) =
    filter (fun x => negb (String.eqb (file x) (file item))) (progressItems s)).
  { intros item. cbn [onMessageReceived progressItems setProgressItems setReady].
    rewrite filter_app. cbn [filter]. rewrite String.eqb_refl. cbn.
    apply app_nil_r. }
  split.
  { intros f item. rewrite receiver_done_items, filter_In.
    rewrite negb_true_iff, String.eqb_neq. tauto. }
  split; [ exact Hround | ].
  split.
  { intros item Hfresh. rewrite Hround.
    apply filter_keeps_all. intros x Hx.
    apply negb_true_iff, String.eqb_neq. now apply Hfresh. }
  apply receiver_done_all. intros item Hin. now apply in_map.
Qed.

End ReceiverProgress.

Section BroadcasterProgress.

Context `{Broadcaster.Platform}.
Import Broadcaster.

Lemma spread_absent (item : ProgressItem) (d : ProgressData) :
  dataFile d = file item -> dataProgress d = Absent -> dataTotal d = Absent ->
  spread item d = item.
Proof.
  intros Hf Hp Ht. unfold spread. rewrite Hf, Hp, Ht. now destruct item.
Qed.

(** X7. A 'progress' message of the transcription worker is spread over
    the entries of its file and keeps the list's file names and order: a
    key the message has replaces the old value, also when its value is
    undefined, and a key it lacks leaves the old value; entries of other
    files are the old ones, and a report for a file with no entry, or one
    that has neither the progress nor the total key, changes nothing. *)
Theorem broadcaster_progress_merges (s : State) (d : ProgressData) :
  let items := progressItems s in
  let items' := progressItems (fst (onMessageReceived (Progress d) s)) in
  map file items' = map file items /\
  (forall item', In item' items' -> file item' = dataFile d ->
     exists item, In item items /\ file item = dataFile d /\
       progress item' =
         match dataProgress d with
         | Present v => v
         | Absent => progress item
         end /\
       total item' =
         match dataTotal d with
         | Present v => v
         | Absent => total item
         end) /\
  (forall item, In item items' -> file item <> dataFile d -> In item items) /\
  ((forall item, In item items -> file item <> dataFile d) -> items' = items) /\
  (dataProgress d = Absent -> dataTotal d = Absent -> items' = items) /\
  (forall v item', In item' items' -> file item' = dataFile d ->
     dataProgress d = Present v -> progress item' = v).
Proof.
  cbn [onMessageReceived progressItems setProgressItems fst].
  induction (progressItems s) as [ | x items IH ]; cbn [map].
  - repeat split; auto; intros; contradiction.
  - destruct IH as (IH1 & IH2 & IH3 & IH4 & IH5 & IH6).
    destruct (String.eqb (file x) (dataFile d)) eqn:Hx.
    + apply String.eqb_eq in Hx.
      split; [ cbn; rewrite IH1; now rewrite Hx | ].
      split.
      { intros item' [<- | Hin] Hf.
        - exists x. split; [ now left | ]. split; [ exact Hx | ].
          unfold spread, overwrite. cbn. split; reflexivity.
        - destruct (IH2 item' Hin Hf) as (item & Hi & Hrest).
          exists item. split; [ now right | exact Hrest ]. }
      split.
      { intros item [<- | Hin] Hf; [ cbn in Hf; congruence | right; now apply IH3 ]. }
      split.
      { intros Hno. exfalso. apply (Hno x); [ now left | exact Hx ]. }
      split.
      { intros Hp Ht. rewrite spread_absent by auto. f_equal. now apply IH5. }
      intros v item' [<- | Hin] Hf Hp; [ | now apply (IH6 v) ].
      unfold spread, overwrite. cbn. now rewrite Hp.
    + apply String.eqb_neq in Hx.
      split; [ cbn; now rewrite IH1 | ].
      split.
      { intros item' [<- | Hin] Hf; [ congruence | ].
        destruct (IH2 item' Hin Hf) as (item & Hi & Hrest).
        exists item. split; [ now right | exact Hrest ]. }
      split.
      { intros item [<- | Hin] Hf; [ now left | right; now apply IH3 ]. }
      split.
      { intros Hno. f_equal. apply IH4. intros item Hin. apply Hno. now right. }
      split.
      { intros Hp Ht. f_equal. now apply IH5. }
      intros v item' [<- | Hin] Hf Hp; [ congruence | now apply (IH6 v) ].
Qed.

Lemma broadcaster_done_items (s : State) (f : string) :
  progressItems (fst (onMessageReceived (Done f) s)) =
  filter (fun item => negb (String.eqb (file item) f)) (progressItems s).
Proof. reflexivity. Qed.

Lemma broadcaster_done_all (fs : list string) : forall s,
  (forall item, In item (progressItems s) -> In (file item) fs) ->
  progressItems
    (fst (run s (map (fun f => WorkerMessage (Done f)) fs))) = [].
Proof.
  induction fs as [ | f fs IH ]; intros s Hall.
  - cbn. destruct (progressItems s) as [ | x r ]; [ reflexivity | ].
    destruct (Hall x (or_introl eq_refl)).
  - cbn [map]. rewrite broadcaster_run_cons. cbn [fst step]. apply IH.
    intros item Hin. rewrite broadcaster_done_items in Hin.
    apply filter_In in Hin as [Hin Hf].
    apply negb_true_iff, String.eqb_neq in Hf.
    destruct (Hall item Hin) as [Heq | Hfs]; [ congruence | exact Hfs ].
Qed.

(** X8. In the broadcaster a 'done' message removes every entry of its
    file and keeps the others; 'initiate' followed by 'done' of a file that
    had no entry gives back the list as it was; once every listed file has
    reported 'done' the list is empty. None of these messages touches the
    chunk buffer, the recording flag or the transcribe gate. *)
Theorem broadcaster_done_clears (s : State) :
  (forall f item,
     In item (progressItems (fst (onMessageReceived (Done f) s))) <->
     In item (progressItems s) /\ file item <> f) /\
  (forall item,
     (forall x, In x (progressItems s) -> file x <> file item) ->
     progressItems
       (fst (run s [WorkerMessage (Initiate item);
                    WorkerMessage (Done (file item))])) = progressItems s) /\
  (let s' := fst (run s (map (fun f => WorkerMessage (Done f))
                           (map file (progressItems s)))) in
   progressItems s' = [] /\ chunks s' = chunks s /\
   recording s' = recording s /\ isProcessing s' = isProcessing s).
Proof.
  split.
  { intros f item. rewrite broadcaster_done_items, filter_In.
    rewrite negb_true_iff, String.eqb_neq. tauto. }
  split.
  { intros item Hfresh.
    cbn [run step onMessageReceived fst progressItems setProgressItems].
    rewrite filter_app. cbn [filter]. rewrite String.eqb_refl. cbn.
    rewrite app_nil_r.
    apply filter_keeps_all. intros x Hx.
    apply negb_true_iff, String.eqb_neq. now apply Hfresh. }
  cbn zeta. split.
  { apply broadcaster_done_all. intros item Hin. now apply in_map. }
  generalize (map file (progressItems s)). intros fs. revert s.
  induction fs as [ | f fs IH ]; intros s; [ now repeat split | ].
  cbn [map]. rewrite broadcaster_run_cons. cbn [fst].
  destruct (IH (fst (step s (WorkerMessage (Done f))))) as (-> & -> & ->).
  now repeat split.
Qed.

End BroadcasterProgress.

(* ================================================================== *)
(** * Further properties of the broadcaster                           *)
(* ================================================================== *)

Section BroadcasterMore.

Context `{Broadcaster.Platform}.
Import Broadcaster Observed.

Lemma step_status (s : State) (e : Event) :
  isNull (fst (step s e)) = true -> isNull s = true.
Proof.
  destruct e as [ | | data | | | ab lang | m | | e | | | ];
    cbn [step fst]; try exact (fun Hn => Hn).
  - unfold ondataavailable.
    destruct (0 <? size data)%nat; exact (fun Hn => Hn).
  - destruct m; try exact (fun Hn => Hn); discriminate.
  - destruct (isNull s) eqn:Hs; [ reflexivity | cbn [fst]; congruence ].
  - destruct (isReady s); exact (fun Hn => Hn).
  - destruct (isReady s); exact (fun Hn => Hn).
Qed.

Lemma step_loads (s : State) (e : Event) :
  length (filter isLoad (snd (step s e))) <= Nat.b2n (isNull s) /\
  (filter isLoad (snd (step s e)) <> [] -> isNull (fst (step s e)) = false).
Proof.
  destruct e as [ | | data | | | ab lang | m | | e | | | ];
    cbn [step snd fst]; try (split; [ cbn; lia | now intros [] ]).
  - unfold ondataavailable.
    destruct (0 <? size data)%nat; split; cbn; try lia; now intros [].
  - unfold ontimeout.
    destruct (recorderRef s); split; cbn; try lia; now intros [].
  - unfold onloadend.
    destruct (decodeAudioData ab); split; cbn; try lia; now intros [].
  - destruct m; cbn; unfold recorderCall;
      destruct (recorderRef s); split; cbn; try lia; now intros [].
  - destruct (isNull s) eqn:Hn; cbn; [ | split; [ lia | now intros [] ] ].
    split; [ lia | reflexivity ].
  - destruct (isReady s); cbn; [ | split; [ lia | now intros [] ] ].
    unfold recorderCall.
    destruct (recorderRef s); split; cbn; try lia; now intros [].
  - destruct (isReady s); cbn; [ | split; [ lia | now intros [] ] ].
    unfold onReset, recorderCall.
    destruct (recorderRef s); split; cbn; try lia; now intros [].
  - rewrite processing_reads.
    destruct (recorderRef s && recording s && negb (isProcessing s) && isReady s);
      [ | split; [ cbn; lia | now intros [] ] ].
    destruct (0 <? length (chunks s))%nat; split; cbn; try lia; now intros [].
  - unfold recorderCall.
    destruct (recorderRef s); split; cbn; try lia; now intros [].
Qed.

(** X9. Whatever happens, the model load is requested at most once: in
    every run the worker receives at most one 'load' message, and none
    when the run starts after the status has left [null]. *)
Theorem load_requested_at_most_once (s : State) (tr : list Event) :
  length (filter isLoad (snd (run s tr))) <= Nat.b2n (isNull s).
Proof.
  revert s. induction tr as [ | e tr IH ]; intros s; [ cbn; lia | ].
  rewrite broadcaster_run_cons. cbn [snd].
  rewrite filter_app, length_app.
  destruct (step_loads s e) as [Hle Hoff].
  specialize (IH (fst (step s e))).
  destruct (filter isLoad (snd (step s e))) as [ | c r ] eqn:Hl.
  - cbn [length] in *.
    destruct (isNull (fst (step s e))) eqn:Hn; cbn in IH; [ | lia ].
    rewrite (step_status s e Hn). cbn. lia.
  - rewrite Hoff in IH by discriminate. cbn in IH. lia.
Qed.

Lemma step_recorder_calls (s : State) (e : Event) :
  recorderRef s = false ->
  filter isRecorderCall (snd (step s e)) = [] /\ readsOf (snd (step s e)) = [].
Proof.
  intros Hr.
  split; [ | rewrite step_reads; destruct e; try reflexivity;
             now rewrite processing_reads, Hr ].
  destruct e as [ | | data | | | ab lang | m | | e | | | ];
    cbn [step snd]; try reflexivity.
  - unfold ondataavailable. now destruct (0 <? size data)%nat.
  - unfold ontimeout. now rewrite Hr.
  - unfold onloadend. now destruct (decodeAudioData ab).
  - destruct m; cbn; unfold recorderCall; now rewrite ?Hr.
  - now destruct (isNull s).
  - destruct (isReady s); [ | reflexivity ].
    cbn. unfold recorderCall. now rewrite Hr.
  - destruct (isReady s); [ | reflexivity ].
    cbn. unfold onReset, recorderCall. now rewrite Hr.
  - now rewrite processing_reads, Hr.
  - unfold recorderCall. now rewrite Hr.
Qed.

Lemma run_without_recorder (tr : list Event) : forall s,
  recorderRef s = false ->
  forallb (fun e => negb (isGrant e)) tr = true ->
  filter isRecorderCall (snd (run s tr)) = [] /\
  readsOf (snd (run s tr)) = [] /\
  recorderRef (fst (run s tr)) = false.
Proof.
  induction tr as [ | e tr IH ]; intros s Hr Hng; [ now repeat split | ].
  cbn [forallb] in Hng. apply andb_true_iff in Hng as [He Hng].
  rewrite broadcaster_run_cons. cbn [fst snd].
  assert (Hr1 : recorderRef (fst (step s e)) = false).
  { rewrite step_recorderRef. destruct e; auto; discriminate. }
  destruct (IH _ Hr1 Hng) as (IH1 & IH2 & IH3).
  destruct (step_recorder_calls s e Hr) as [Hc Hrd].
  unfold readsOf in *. rewrite !filter_app, IH1, IH2, Hc, Hrd.
  now repeat split.
Qed.

(** X10. Without a recorder nothing is asked of it: from a state where
    [recorderRef.current] is unset (before the microphone is granted, or
    after the cleanup), a run in which no stream is granted makes no
    [start()], [stop()] or [requestData()] call, reads no window, leaves
    the ref unset, and the processing effect stays idle. *)
Theorem no_recorder_no_calls (s : State) (tr : list Event) :
  recorderRef s = false ->
  forallb (fun e => negb (isGrant e)) tr = true ->
  filter isRecorderCall (snd (run s tr)) = [] /\
  readsOf (snd (run s tr)) = [] /\
  recorderRef (fst (run s tr)) = false /\
  processing (fst (run s tr)) = [].
Proof.
  intros Hr Hng.
  destruct (run_without_recorder tr s Hr Hng) as (Hc & Hrd & Hr').
  repeat split; auto.
  now rewrite processing_reads, Hr'.
Qed.

Lemma start_is_recorder_call (cmds : list Cmd) :
  filter isRecorderCall cmds = [] -> filter isStartCall cmds = [].
Proof.
  induction cmds as [ | c cmds IH ]; [ reflexivity | ].
  destruct c; cbn; auto; discriminate.
Qed.

Lemma step_start_calls (s : State) (e : Event) :
  startsRecorder e = false -> filter isStartCall (snd (step s e)) = [].
Proof.
  intros He.
  destruct e as [ | | data | | | ab lang | m | | e | | | ];
    cbn [step snd]; try reflexivity; try discriminate.
  - unfold ondataavailable. now destruct (0 <? size data)%nat.
  - unfold ontimeout. now destruct (recorderRef s).
  - unfold onloadend. now destruct (decodeAudioData ab).
  - destruct m; try discriminate; cbn; unfold recorderCall;
      now destruct (recorderRef s).
  - now destruct (isNull s).
  - rewrite processing_reads.
    destruct (recorderRef s && recording s && negb (isProcessing s) && isReady s);
      [ | reflexivity ].
    now destruct (0 <? length (chunks s))%nat.
  - unfold recorderCall. now destruct (recorderRef s).
Qed.

Lemma run_start_calls (tr : list Event) : forall s,
  forallb (fun e => negb (startsRecorder e)) tr = true ->
  filter isStartCall (snd (run s tr)) = [].
Proof.
  induction tr as [ | e tr IH ]; intros s Hno; [ reflexivity | ].
  cbn [forallb] in Hno. apply andb_true_iff in Hno as [He Hno].
  rewrite broadcaster_run_cons. cbn [snd].
  rewrite filter_app, IH by exact Hno.
  rewrite step_start_calls; [ reflexivity | ].
  now apply negb_true_iff.
Qed.

(** X16. The recorder is started only by the 'ready' message, the
    language selector and the Reset button: a run with none of these calls
    [start()] never. So when the worker reports 'ready' before the
    microphone is granted, the [start()] of the 'ready' case is skipped
    and recording does not begin when the stream arrives later, until the
    user chooses a language or presses Reset. *)
Theorem recorder_started_on_request_only (s : State) (tr1 tr2 : list Event) :
  recorderRef s = false ->
  forallb (fun e => negb (isGrant e)) tr1 = true ->
  forallb (fun e => negb (startsRecorder e)) tr2 = true ->
  filter isStartCall (snd (run s tr2)) = [] /\
  filter isStartCall (snd (run s (tr1 ++ StreamGranted :: tr2))) = [].
Proof.
  intros Hr Hng Hno.
  split; [ now apply run_start_calls | ].
  rewrite broadcaster_run_app. cbn [snd]. rewrite filter_app.
  destruct (run_without_recorder tr1 s Hr Hng) as (Hc & _ & _).
  rewrite (start_is_recorder_call _ Hc).
  rewrite broadcaster_run_cons. cbn [snd step app filter].
  now apply run_start_calls.
Qed.

Lemma broadcastsOf_app (c1 c2 : list Cmd) :
  broadcastsOf (c1 ++ c2) = broadcastsOf c1 ++ broadcastsOf c2.
Proof.
  induction c1 as [ | c c1 IH ]; [ reflexivity | ].
  destruct c; cbn; now rewrite IH.
Qed.

Lemma step_broadcasts (s : State) (e : Event) :
  broadcastsOf (snd (step s e)) = completions [e].
Proof.
  destruct e as [ | | data | | | ab lang | m | | e | | | ];
    cbn [step snd completions]; try reflexivity.
  - unfold ondataavailable. now destruct (0 <? size data)%nat.
  - unfold ontimeout. now destruct (recorderRef s).
  - unfold onloadend. now destruct (decodeAudioData ab).
  - destruct m; cbn; unfold recorderCall; now destruct (recorderRef s).
  - now destruct (isNull s).
  - destruct (isReady s); [ | reflexivity ].
    cbn. unfold recorderCall. now destruct (recorderRef s).
  - destruct (isReady s); [ | reflexivity ].
    cbn. unfold onReset, recorderCall. now destruct (recorderRef s).
  - rewrite processing_reads.
    destruct (recorderRef s && recording s && negb (isProcessing s) && isReady s);
      [ | reflexivity ].
    now destruct (0 <? length (chunks s))%nat.
  - unfold recorderCall. now destruct (recorderRef s).
Qed.

(** X11. Transcripts are published one for one: in every run the messages
    broadcast on the channel are, in order, the first output of each
    'complete' message received (undefined when the output array is
    empty); nothing else is ever broadcast and no completion is skipped. *)
Theorem broadcasts_follow_completions (s : State) (tr : list Event) :
  broadcastsOf (snd (run s tr)) = completions tr.
Proof.
  revert s. induction tr as [ | e tr IH ]; intros s; [ reflexivity | ].
  rewrite broadcaster_run_cons. cbn [snd].
  rewrite broadcastsOf_app, IH, step_broadcasts.
  destruct e as [ | | | | | | m | | | | | ]; try reflexivity.
  now destruct m.
Qed.

(** X12. In every run, each file read that ends with decodable data posts
    exactly one audio window to the worker and a read whose data does not
    decode posts none; no other event posts a window, and every window
    posted has at most [MAX_SAMPLES] samples. *)
Theorem windows_bounded (s : State) (tr : list Event) :
  length (windowsOf (snd (run s tr))) = length (filter decodable tr) /\
  Forall (fun w => (Z.of_nat (length w) <= MAX_SAMPLES)%Z)
         (windowsOf (snd (run s tr))).
Proof.
  revert s. induction tr as [ | e tr IH ]; intros s;
    [ split; [ reflexivity | constructor ] | ].
  rewrite broadcaster_run_cons. cbn [snd].
  destruct (IH (fst (step s e))) as [IH1 IH2].
  rewrite windowsOf_app, length_app, IH1, step_windows.
  split.
  - cbn [filter].
    destruct e as [ | | | | | ab lang | | | | | | ]; try reflexivity.
    destruct (onloadend_windows ab lang) as [-> _].
    now destruct (decodable (LoadEnd ab lang)).
  - apply Forall_app. split; [ | exact IH2 ].
    destruct e as [ | | | | | ab lang | | | | | | ]; try constructor.
    apply onloadend_windows.
Qed.

(** X13. The language shown and the language read by the callbacks never
    drift apart, and only the language selector changes them: every event
    keeps [language] equal to [languageRef.current], and after a run in
    which no language is chosen both are still the initial 'en'. *)
Theorem language_follows_selector :
  (forall tr, language (fst (run init tr)) = languageRef (fst (run init tr))) /\
  (forall tr,
     forallb (fun e => match e with SetLanguage _ => false | _ => true end) tr
       = true ->
     language (fst (run init tr)) = "en").
Proof.
  assert (Hstep : forall s e,
            language s = languageRef s ->
            language (fst (step s e)) = languageRef (fst (step s e))).
  { intros s e Hl.
    destruct e as [ | | data | | | ab lang | m | | e | | | ];
      cbn [step fst]; auto.
    - unfold ondataavailable. now destruct (0 <? size data)%nat.
    - now destruct m.
    - now destruct (isNull s).
    - now destruct (isReady s).
    - now destruct (isReady s). }
  split.
  - intros tr.
    assert (Hgen : forall s, language s = languageRef s ->
              language (fst (run s tr)) = languageRef (fst (run s tr))).
    { induction tr as [ | e tr IH ]; intros s Hl; [ exact Hl | ].
      rewrite broadcaster_run_cons. cbn [fst]. apply IH. now apply Hstep. }
    now apply Hgen.
  - intros tr.
    assert (Hgen : forall s,
              forallb (fun e => match e with SetLanguage _ => false | _ => true end)
                tr = true ->
              language (fst (run s tr)) = language s).
    { induction tr as [ | e tr IH ]; intros s Hno; [ reflexivity | ].
      cbn [forallb] in Hno. apply andb_true_iff in Hno as [He Hno].
      rewrite broadcaster_run_cons. cbn [fst]. rewrite IH by exact Hno.
      rewrite step_language. destruct e; auto; discriminate. }
    intros Hno. now rewrite Hgen.
Qed.

Lemma recording_run (tr : list Event) : forall s,
  recording (fst (run s tr)) =
  fold_left (fun b e => recordingAfter e b) tr (recording s).
Proof.
  induction tr as [ | e tr IH ]; intros s; [ reflexivity | ].
  rewrite broadcaster_run_cons. cbn [fst fold_left]. rewrite IH. f_equal.
  destruct e as [ | | data | | | ab lang | m | | e | | | ];
    cbn [step fst recordingAfter]; try reflexivity.
  - unfold ondataavailable. now destruct (0 <? size data)%nat.
  - now destruct m.
  - now destruct (isNull s).
  - now destruct (isReady s).
  - now destruct (isReady s).
Qed.

(** X14. The chunk buffer holds exactly the non-empty chunks delivered
    since the last recorder start, in delivery order, whatever other
    events (worker messages, clicks, effect runs, timers) came in between;
    before any start it holds what it held plus those chunks. The
    recording flag is the one set by the last start or stop callback. *)
Theorem buffer_is_current_segment (s : State) (tr1 tr2 : list Event) :
  forallb (fun e => negb (isOnStart e)) tr2 = true ->
  chunks (fst (run s (tr1 ++ OnStart :: tr2))) =
    filter (fun c => (0 <? size c)%nat) (deliveries tr2) /\
  chunks (fst (run s tr2)) =
    chunks s ++ filter (fun c => (0 <? size c)%nat) (deliveries tr2) /\
  recording (fst (run s (tr1 ++ OnStart :: tr2))) =
    fold_left (fun b e => recordingAfter e b) tr2 true.
Proof.
  intros Hno.
  split; [ | split; [ now apply chunks_without_start | ] ].
  - rewrite broadcaster_run_app. cbn [fst].
    rewrite broadcaster_run_cons. cbn [fst].
    now rewrite chunks_without_start.
  - rewrite recording_run, fold_left_app. cbn [fold_left recordingAfter].
    reflexivity.
Qed.

End BroadcasterMore.

(* ================================================================== *)
(** * Audio in transit                                                *)
(* ================================================================== *)

Section CaptureMore.

Context {P : Broadcaster.Platform}.
Import Broadcaster Capture Observed.

Local Abbreviation MCmd := (@Cmd Marked).
Local Abbreviation MEvent := (@Event Marked).

Lemma exec_heard (sys : System) (c : MCmd) :
  (isStartCall c = false -> heard (exec sys c) = heard sys) /\
  (heard (exec sys c) = heard sys \/ heard (exec sys c) = []).
Proof.
  unfold heard.
  destruct c; cbn [exec app device isStartCall];
    try (split; [ reflexivity | now left ]).
  - split; [ discriminate | ].
    unfold start. destruct (state (device sys)); [ | now left ].
    right. cbn [queue captured]. unfold afterQueue.
    rewrite fold_left_app. cbn. reflexivity.
  - assert (Hsame :
      afterQueue (concat (chunks (app sys))) (queue (stop (device sys)))
        ++ captured (stop (device sys)) =
      afterQueue (concat (chunks (app sys))) (queue (device sys))
        ++ captured (device sys)).
    { unfold stop. destruct (state (device sys)); [ reflexivity | ].
      cbn [queue captured]. unfold afterQueue.
      rewrite fold_left_app. cbn. now rewrite app_nil_r. }
    split; [ intros _; exact Hsame | left; exact Hsame ].
  - assert (Hsame :
      afterQueue (concat (chunks (app sys))) (queue (requestData (device sys)))
        ++ captured (requestData (device sys)) =
      afterQueue (concat (chunks (app sys))) (queue (device sys))
        ++ captured (device sys)).
    { unfold requestData. destruct (state (device sys)); [ reflexivity | ].
      cbn [queue captured]. unfold afterQueue.
      rewrite fold_left_app. cbn. now rewrite app_nil_r. }
    split; [ intros _; exact Hsame | left; exact Hsame ].
Qed.

Lemma exec_all_heard (cmds : list MCmd) : forall sys,
  (existsb isStartCall cmds = false ->
   heard (fold_left exec cmds sys) = heard sys) /\
  (heard (fold_left exec cmds sys) = heard sys \/
   heard (fold_left exec cmds sys) = []).
Proof.
  induction cmds as [ | c cmds IH ]; intros sys; [ split; auto | ].
  cbn [fold_left existsb].
  destruct (IH (exec sys c)) as [IH1 IH2].
  destruct (exec_heard sys c) as [H1 H2].
  split.
  - intros Hno. apply orb_false_iff in Hno as [Hc Hno].
    now rewrite IH1, H1.
  - destruct IH2 as [-> | ->]; [ exact H2 | now right ].
Qed.

(** An event that leaves the chunk buffer alone. *)
Lemma deliver_heard (e : MEvent) (sys : System) :
  chunks (fst (step (app sys) e)) = chunks (app sys) ->
  (existsb isStartCall (snd (deliver e sys)) = false ->
   heard (fst (deliver e sys)) = heard sys) /\
  (heard (fst (deliver e sys)) = heard sys \/ heard (fst (deliver e sys)) = []).
Proof.
  unfold deliver. destruct (step (app sys) e) as [a cmds]. cbn [fst snd].
  intros Hc.
  pose proof (exec_all_heard cmds
                (mkSystem a (device sys) (timers sys) (reads sys))) as Hall.
  assert (Hsame : heard (mkSystem a (device sys) (timers sys) (reads sys))
                  = heard sys).
  { unfold heard. cbn [app device]. now rewrite Hc. }
  now rewrite Hsame in Hall.
Qed.

Lemma dispatch_heard (sys : System) :
  existsb isStartCall (snd (act sys Dispatch)) = false /\
  heard (fst (act sys Dispatch)) = heard sys.
Proof.
  cbn [act].
  destruct (queue (device sys)) as [ | cb q ] eqn:Hq;
    [ split; reflexivity | ].
  assert (Hsys : heard sys =
            afterQueue (afterCallback (concat (chunks (app sys))) cb) q
            ++ captured (device sys)).
  { unfold heard. now rewrite Hq. }
  rewrite Hsys.
  destruct cb as [ | blob | ]; cbn [eventOf]; unfold deliver, heard;
    cbn [step app device timers reads afterCallback].
  - split; reflexivity.
  - unfold ondataavailable.
    destruct (0 <? size blob)%nat eqn:Hsz;
      cbn [fold_left fst snd exec app device queue captured existsb
           isStartCall orb].
    + split; [ reflexivity | ].
      cbn [chunks setChunks]. rewrite concat_app. cbn [concat].
      now rewrite app_nil_r.
    + split; [ reflexivity | ].
      apply Nat.ltb_ge in Hsz. unfold size in Hsz.
      assert (Hb : blob = []) by (destruct blob; [ easy | simpl in Hsz; lia ]).
      subst blob. now rewrite app_nil_r.
  - split; reflexivity.
Qed.

(** X15. On the way from the microphone to the chunk buffer no audio is
    lost, duplicated or reordered within a recording segment. Take the
    audio in transit: what the buffer will hold once the queued recorder
    callbacks have run, followed by what the recorder has gathered. A byte
    produced while recording is added at its end; every other step of the
    component and its recorder (a callback, a worker message, an effect
    run, a timer, a click) leaves it as it is, unless the step restarts
    the recorder, which empties it. *)
Theorem audio_kept_in_order (sys : System) (a : Action) :
  match a with
  | Sound b =>
      heard (fst (act sys a)) =
      match state (device sys) with
      | Recording => heard sys ++ [(b, language (app sys))]
      | Inactive => heard sys
      end
  | _ =>
      (existsb isStartCall (snd (act sys a)) = false ->
       heard (fst (act sys a)) = heard sys) /\
      (heard (fst (act sys a)) = heard sys \/ heard (fst (act sys a)) = [])
  end.
Proof.
  destruct a as [ b | | | | | m | | e | | | ].
  - cbn [act fst]. unfold heard, capture. cbn [app device].
    destruct (state (device sys)); [ reflexivity | ].
    cbn [queue captured]. now rewrite app_assoc.
  - destruct (dispatch_heard sys) as [_ Hd]. split; [ auto | now left ].
  - cbn [act]. destruct (timers sys) as [ | n ]; [ split; auto | ].
    apply (deliver_heard TimerFired
             (mkSystem (app sys) (device sys) n (reads sys))).
    reflexivity.
  - cbn [act]. destruct (reads sys) as [ | [blob lang] r ]; [ split; auto | ].
    apply (deliver_heard (LoadEnd blob lang)
             (mkSystem (app sys) (device sys) (timers sys) r)).
    reflexivity.
  - cbn [act]. apply deliver_heard. reflexivity.
  - cbn [act]. apply deliver_heard. now rewrite step_chunks.
  - cbn [act]. apply deliver_heard. now rewrite step_chunks.
  - cbn [act]. apply deliver_heard. now rewrite step_chunks.
  - cbn [act]. apply deliver_heard. now rewrite step_chunks.
  - cbn [act]. apply deliver_heard. reflexivity.
  - cbn [act]. apply deliver_heard. reflexivity.
Qed.

End CaptureMore.

(* ================================================================== *)
(** * Further runs                                                    *)
(* ================================================================== *)

Section MoreRuns.

#[local] Existing Instance Concrete.env.
#[local] Existing Instance Concrete.platform.

(** A French transcript arrives; the mapping knows German and English. *)
Lemma unknown_language_is_posted_witness :
  snd (Receiver.step Receiver.init (Receiver.Broadcast "Bonjour." "fr")) =
    [Receiver.ConsoleLog "Translating...";
     Receiver.PostMessage "Bonjour." None "eng_Latn"].
Proof.
  destruct (@unknown_language_is_posted Concrete.env Receiver.init "Bonjour." "fr"
              eq_refl eq_refl) as [Hposted _].
  exact Hposted.
Defined.

(** A German transcript arrives in the initial state. *)
Lemma refs_follow_state_witness :
  let s := fst (Receiver.step Receiver.init
                  (Receiver.Broadcast "Guten Tag." "de")) in
  Receiver.input s = Receiver.inputRef s /\
  Receiver.sourceLanguage s = Receiver.sourceLanguageRef s /\
  Receiver.targetLanguage s = Receiver.targetLanguageRef s.
Proof.
  destruct refs_follow_state as [Hstep _].
  apply (Hstep Receiver.init (Receiver.Broadcast "Guten Tag." "de"));
    reflexivity.
Defined.

(** One file is loading; progress arrives for it and for an unknown file. *)
Lemma receiver_progress_in_place_witness :
  let s := Receiver.onMessageReceived
             (Receiver.Initiate (Receiver.mkItem "model.onnx" None))
             Receiver.init in
  (forall item,
     In item (Receiver.progressItems
                (Receiver.onMessageReceived
                   (Receiver.Progress "model.onnx" (Some 50%Z)) s)) ->
     Receiver.file item = "model.onnx" ->
     Receiver.progress item = Some 50%Z) /\
  Receiver.progressItems
    (Receiver.onMessageReceived (Receiver.Progress "other.json" (Some 50%Z)) s) =
  Receiver.progressItems s.
Proof.
  intros s.
  destruct (receiver_progress_in_place s "model.onnx" (Some 50%Z))
    as (_ & Hset & _).
  destruct (receiver_progress_in_place s "other.json" (Some 50%Z))
    as (_ & _ & _ & Hmiss).
  split; [ exact Hset | ].
  apply Hmiss. intros item [<- | []]. discriminate.
Defined.

(** A second file is announced and reports 'done'. *)
Lemma receiver_done_clears_witness :
  let s := Receiver.onMessageReceived
             (Receiver.Initiate (Receiver.mkItem "model.onnx" None))
             Receiver.init in
  let item := Receiver.mkItem "config.json" None in
  Receiver.progressItems
    (Receiver.onMessageReceived (Receiver.Done (Receiver.file item))
       (Receiver.onMessageReceived (Receiver.Initiate item) s)) =
  Receiver.progressItems s.
Proof.
  intros s item.
  destruct (receiver_done_clears s) as (_ & _ & Hround & _).
  apply Hround. intros x [<- | []]. discriminate.
Defined.

(** A report without the progress and total keys, a report for a file that
    is not listed, and a report whose progress is undefined. *)
Lemma broadcaster_progress_merges_witness :
  let s := fst (Broadcaster.onMessageReceived
                  (Broadcaster.Initiate
                     (Broadcaster.mkItem "model.onnx" (Some 10%Z) (Some 200%Z)))
                  Broadcaster.init) in
  Broadcaster.progressItems
    (fst (Broadcaster.onMessageReceived
            (Broadcaster.Progress
               (Broadcaster.mkData "model.onnx"
                  Broadcaster.Absent Broadcaster.Absent)) s)) =
  Broadcaster.progressItems s /\
  Broadcaster.progressItems
    (fst (Broadcaster.onMessageReceived
            (Broadcaster.Progress
               (Broadcaster.mkData "other.json"
                  (Broadcaster.Present (Some 5%Z)) Broadcaster.Absent)) s)) =
  Broadcaster.progressItems s /\
  (forall item',
     In item'
        (Broadcaster.progressItems
           (fst (Broadcaster.onMessageReceived
                   (Broadcaster.Progress
                      (Broadcaster.mkData "model.onnx"
                         (Broadcaster.Present None) Broadcaster.Absent)) s))) ->
     Broadcaster.file item' = "model.onnx" ->
     Broadcaster.progress item' = None).
Proof.
  intros s.
  destruct (@broadcaster_progress_merges Concrete.platform s
              (@Broadcaster.mkData Concrete.platform "model.onnx"
                 (@Broadcaster.Absent Concrete.platform) (@Broadcaster.Absent Concrete.platform)))
    as (_ & _ & _ & _ & Habsent & _).
  destruct (@broadcaster_progress_merges Concrete.platform s
              (@Broadcaster.mkData Concrete.platform "other.json"
                 (@Broadcaster.Present Concrete.platform (Some 5%Z)) (@Broadcaster.Absent Concrete.platform)))
    as (_ & _ & _ & Hmiss & _).
  destruct (@broadcaster_progress_merges Concrete.platform s
              (@Broadcaster.mkData Concrete.platform "model.onnx"
                 (@Broadcaster.Present Concrete.platform None) (@Broadcaster.Absent Concrete.platform)))
    as (_ & _ & _ & _ & _ & Hundef).
  split; [ exact (Habsent eq_refl eq_refl) | ].
  split.
  - apply Hmiss. intros item [<- | []]. discriminate.
  - intros item' Hin Hf. exact (Hundef None item' Hin Hf eq_refl).
Defined.

(** A second file is announced and reports 'done'. *)
Lemma broadcaster_done_clears_witness :
  let s := fst (Broadcaster.onMessageReceived
                  (Broadcaster.Initiate
                     (Broadcaster.mkItem "model.onnx" None None))
                  Broadcaster.init) in
  let item := Broadcaster.mkItem "config.json" None None in
  Broadcaster.progressItems
    (fst (Broadcaster.run s
            [Broadcaster.WorkerMessage (Broadcaster.Initiate item);
             Broadcaster.WorkerMessage
               (Broadcaster.Done (Broadcaster.file item))])) =
  Broadcaster.progressItems s.
Proof.
  intros s item.
  destruct (broadcaster_done_clears s) as (_ & Hround & _).
  apply Hround. intros x [<- | []]. discriminate.
Defined.

(** The model loads and the user presses Reset, but no microphone. *)
Lemma no_recorder_no_calls_witness :
  let tr := [Broadcaster.ClickStart;
             Broadcaster.WorkerMessage Broadcaster.Ready;
             Broadcaster.Effect; Broadcaster.ClickReset;
             Broadcaster.SetLanguage "fr"; Broadcaster.TimerFired] in
  filter Observed.isRecorderCall
    (snd (Broadcaster.run Broadcaster.init tr)) = [] /\
  Broadcaster.processing (fst (Broadcaster.run Broadcaster.init tr)) = [].
Proof.
  intros tr.
  destruct (@no_recorder_no_calls Concrete.platform Broadcaster.init tr eq_refl eq_refl)
    as (Hcalls & _ & _ & Hidle).
  exact (conj Hcalls Hidle).
Defined.

(** Loading, recording and one transcription, the selector untouched. *)
Lemma language_follows_selector_witness :
  Broadcaster.language
    (fst (Broadcaster.run Broadcaster.init
            [Broadcaster.StreamGranted; Broadcaster.ClickStart;
             Broadcaster.WorkerMessage Broadcaster.Ready;
             Broadcaster.OnStart; Broadcaster.OnDataAvailable [tt];
             Broadcaster.Effect; Broadcaster.ClickReset;
             Broadcaster.WorkerMessage (Broadcaster.Complete ["hi"])])) = "en".
Proof.
  destruct language_follows_selector as [_ Hsame].
  apply Hsame. reflexivity.
Defined.

(** A segment is cut by a restart; an empty delivery and other events
    come in between. *)
Lemma buffer_is_current_segment_witness :
  let tr1 := [Broadcaster.OnStart; Broadcaster.OnDataAvailable [tt]] in
  let tr2 := [Broadcaster.OnDataAvailable [tt; tt];
              Broadcaster.WorkerMessage Broadcaster.Start;
              Broadcaster.OnDataAvailable [];
              Broadcaster.Effect;
              Broadcaster.OnDataAvailable [tt]] in
  Broadcaster.chunks
    (fst (Broadcaster.run Broadcaster.init (tr1 ++ Broadcaster.OnStart :: tr2))) =
  filter (fun c => (0 <? Broadcaster.size c)%nat) (Observed.deliveries tr2).
Proof.
  intros tr1 tr2.
  destruct (@buffer_is_current_segment Concrete.platform Broadcaster.init tr1 tr2 eq_refl)
    as [Hbuf _].
  exact Hbuf.
Defined.

(** The effect asks for data while a byte waits in the recorder. *)
Lemma audio_kept_in_order_witness :
  let sys := fst (Capture.runSystem Capture.initial
                    [Capture.Granted; Capture.PressStart;
                     Capture.Worker Broadcaster.Ready; Capture.Dispatch;
                     Capture.Sound tt]) in
  Observed.heard (fst (Capture.act sys Capture.Render)) = Observed.heard sys.
Proof.
  intros sys.
  destruct (audio_kept_in_order sys Capture.Render) as [Hkeep _].
  apply Hkeep. reflexivity.
Defined.

(** The worker is ready before the microphone is granted. *)
Lemma recorder_started_on_request_only_witness :
  let tr1 := [Broadcaster.ClickStart;
              Broadcaster.WorkerMessage Broadcaster.Ready] in
  let tr2 := [Broadcaster.Effect; Broadcaster.TimerFired;
              Broadcaster.Effect] in
  filter Observed.isStartCall
    (snd (Broadcaster.run Broadcaster.init
            (tr1 ++ Broadcaster.StreamGranted :: tr2))) = [].
Proof.
  intros tr1 tr2.
  destruct (@recorder_started_on_request_only Concrete.platform
              Broadcaster.init tr1 tr2
              eq_refl eq_refl eq_refl) as [_ Hnever].
  exact Hnever.
Defined.

End MoreRuns.
